(** * Audio2Face to Unreal: a shallow embedding of [audio2face_unreal.py]

    The development follows [src/python/audio2face_unreal.py].  The class
    [Audio2FaceUnrealProcessor] streams one WAV file to the Audio2Face
    service, collects one animation frame per response that carries
    animation data, and writes three export files per audio file.

    Python values are modelled as follows.
    - [bytes] is a list of [Byte.byte]; [str] is [String.string], a byte
      string (UTF-8 keeps the code point order, so comparing the bytes
      gives Python's ordering of [str]);
    - numbers that reach [max], [/] and [>] (time codes, weights, frame
      rates) are exact rationals [Q]: no rounding and no NaN;
    - a protobuf field probed with [HasField], [hasattr] or [getattr] is an
      [option];
    - logging, file and service calls are recorded in an event trace, and
      an exception is a [Raise] result (monad [M]);
    - the file system and the service are the fields of [Env]. *)

From Stdlib Require Import List String Ascii Strings.Byte Bool Arith ZArith QArith.
From Stdlib Require Import Qround Lia Permutation Sorted OrderedTypeEx.
Import ListNotations.

Set Warnings "-abstract-large-number".

Local Open Scope string_scope.
Local Open Scope list_scope.
Local Open Scope nat_scope.

(** ** Python built-ins used by the script *)

Module Py.

Definition bytes := list byte.

(** [len(range(start, stop, step))] for a positive [step], as CPython
    computes it before iterating. *)
Definition range_len (start stop step : nat) : nat :=
  if start <? stop then 1 + (stop - 1 - start) / step else 0.

(** [range(start, stop, step)] for a positive [step]. *)
Definition range (start stop step : nat) : list nat :=
  map (fun k => start + k * step) (seq 0 (range_len start stop step)).

(** [l[i:j]] for indices [0 <= i], [0 <= j]; both ends are clamped to the
    length, and the slice is empty when [j <= i]. *)
Definition slice {A : Type} (l : list A) (i j : nat) : list A :=
  firstn (j - i) (skipn i l).

(** The slices [data[i:i + c]] taken by a loop
    [for i in range(0, len(data), c)]. *)
Definition slices {A : Type} (data : list A) (c : nat) : list (list A) :=
  map (fun i => slice data i (i + c)) (range 0 (List.length data) c).

(** [x > y] on numbers. *)
Definition gtb (x y : Q) : bool :=
  match (x ?= y)%Q with Gt => true | _ => false end.

(** [x / y] on numbers; [None] stands for the [ZeroDivisionError] raised
    when [y] is zero. *)
Definition truediv (x y : Q) : option Q :=
  match (y ?= 0)%Q with
  | Eq => None
  | _ => Some (x / y)%Q
  end.

(** The loop of [max(iterable)]: the running maximum is replaced by an
    item only when the item is strictly greater. *)
Fixpoint max_loop (maxitem : Q) (items : list Q) : Q :=
  match items with
  | [] => maxitem
  | item :: rest => max_loop (if gtb item maxitem then item else maxitem) rest
  end.

(** [max(iterable)]; [None] stands for the [ValueError] on an empty
    iterable. *)
Definition max (items : list Q) : option Q :=
  match items with
  | [] => None
  | item :: rest => Some (max_loop item rest)
  end.

(** [s.rfind(c)] for a one-character [c]; [None] stands for [-1]. *)
Fixpoint rfind (c : ascii) (s : string) : option nat :=
  match s with
  | EmptyString => None
  | String a s' =>
      match rfind c s' with
      | Some i => Some (S i)
      | None => if Ascii.eqb a c then Some 0 else None
      end
  end.

(** [s.endswith(suffix)]. *)
Definition endswith (s suffix : string) : bool :=
  (String.length suffix <=? String.length s) &&
  String.eqb
    (substring (String.length s - String.length suffix) (String.length suffix) s)
    suffix.

End Py.

(** ** pathlib *)

Module Path.

(** A pure path is the tuple of its components ([PurePath.parts]). *)
Definition t := list string.

(** [p / name], for a [name] of one component. *)
Definition div (p : t) (name : string) : t := p ++ [name].

(** [str(p)]: the components joined by the separator; the root, when
    the path is absolute, is the component ["/"] and is not followed by
    a separator, and the empty path is written as a dot. *)
Definition str (p : t) : string :=
  match p with
  | [] => "."
  | root :: rest =>
      if String.eqb root "/"
      then ("/" ++ String.concat "/" rest)%string
      else String.concat "/" p
  end.

(** [p.name]: the final component (of a path that is not the root
    alone). *)
Definition name (p : t) : string := last p "".

(** [p.stem]: the final component without its last suffix. *)
Definition stem (p : t) : string :=
  let n := name p in
  match Py.rfind "."%char n with
  | Some i =>
      if (0 <? i) && (i <? String.length n - 1) then substring 0 i n else n
  | None => n
  end.

(** [p.suffix]: the last suffix of the final component, with its dot. *)
Definition suffix (p : t) : string :=
  let n := name p in
  match Py.rfind "."%char n with
  | Some i =>
      if (0 <? i) && (i <? String.length n - 1)
      then substring i (String.length n - i) n
      else ""
  | None => ""
  end.

(** [p.parent]: the path without its final component; the empty path is
    its own parent (the root alone, which is its own parent too, is
    outside the model). *)
Definition parent (p : t) : t := removelast p.

(** [Path(s).name] for a path string [s]: the text after the last
    separator (a string that ends in a separator or in a dot component is
    outside the model). *)
Definition name_of_str (s : string) : string :=
  match Py.rfind "/"%char s with
  | Some i => substring (S i) (String.length s - S i) s
  | None => s
  end.

(** Comparison of two paths: the comparison of their component tuples,
    component by component. *)
Fixpoint compare (p q : t) : comparison :=
  match p, q with
  | [], [] => Eq
  | [], _ :: _ => Lt
  | _ :: _, [] => Gt
  | a :: p', b :: q' =>
      match String.compare a b with
      | Eq => compare p' q'
      | c => c
      end
  end.

(** [p < q]. *)
Definition ltb (p q : t) : bool :=
  match compare p q with Lt => true | _ => false end.

(** [not (q < p)]: the order that [sort] establishes. *)
Definition le (p q : t) : Prop := ltb q p = false.

(** [list.sort()] on paths: a stable sort that only asks [<].  The new
    element goes in front of the first element that is not smaller than
    it. *)
Fixpoint insert (x : t) (l : list t) : list t :=
  match l with
  | [] => [x]
  | y :: l' => if ltb y x then y :: insert x l' else x :: y :: l'
  end.

Fixpoint sort (l : list t) : list t :=
  match l with
  | [] => []
  | x :: l' => insert x (sort l')
  end.

End Path.

(** ** Messages of the Audio2Face service *)

(** The request messages ([nvidia_ace] protobuf classes), with the fields
    the script sets. *)
Inductive AudioFormat := AUDIO_FORMAT_PCM.

Record AudioHeader := {
  audio_format : AudioFormat;
  channel_count : Z;
  samples_per_second : Z;
  bits_per_sample : Z
}.

Record FaceParameters := { float_params : list (string * Q) }.

Record AudioStreamHeader := {
  audio_header : AudioHeader;
  face_params : FaceParameters
}.

Record AudioWithEmotion := { audio_buffer : Py.bytes }.

(** [controller_pb2.AudioStream]: a message with exactly one of three
    fields set. *)
Inductive AudioStream :=
| audio_stream_header (header : AudioStreamHeader)
| audio_with_emotion (audio_emotion : AudioWithEmotion)
| end_of_audio.

(** The response messages.  A field that the script probes before reading
    it is an [option]: [None] when [HasField] or [hasattr] answers false,
    or when [getattr] falls back to its default. *)
Module pb.

Record FloatArrayWithTimeCode := {
  time_code : option Q;
  values : option (list Q)
}.

Record SkelAnimation := {
  blend_shape_weights : option (list FloatArrayWithTimeCode)
}.

Record AnimationData := { skel_animation : option SkelAnimation }.

Record Response := { animation_data : option AnimationData }.

End pb.

(** ** Animation data built by the script *)

(** One element of [animation_frames]: the dict
    [{'time_code': ..., 'blendshape_weights': ...}]. *)
Record Frame := {
  time_code : Q;
  blendshape_weights : list Q
}.

(** The dict returned by [_process_with_nvidia_sdk] and by
    [_process_with_custom_grpc]; only the latter sets ['warning']. *)
Record AnimationResult := {
  source_file : string;
  frames : list Frame;
  duration : Q;
  frame_count : nat;
  warning : option string
}.

(** ** Exceptions, log records and effects *)

Inductive exn :=
| AioRpcError (details : string)
| ValueError (msg : string)
| OSError (msg : string)
| RuntimeError (msg : string)
| ZeroDivisionError (msg : string).

Inductive level := DEBUG | INFO | WARNING | ERROR.

(** One constructor per call of [logger]; the arguments are the values
    that the f-string interpolates. *)
Inductive message :=
| Found_WAV_files (n : nat)
| Processing (i n : nat) (name : string)
| Failed_to_process (name : string) (e : exn)
| Generated_animation_assets (n : nat)
| Using_NVIDIA_ACE_SDK
| Using_custom_gRPC
| Extracted_weights (n : nat) (time : Q)
| No_values_field
| Available_fields
| Weights_list_is_empty
| No_blend_shape_weights_field
| No_skel_animation_field
| Processed_frames (n : nat) (time : Q) (blendshapes : nat)
| gRPC_error (e : exn)
| Generated_USD_file (name : string)
| Failed_to_export_USD (e : exn)
| Generated_JSON_file (name : string)
| Failed_to_export_JSON (e : exn)
| Generated_metadata (name : string)
| Failed_to_export_metadata (e : exn).

(** The dict written by [_export_as_json]. *)
Record ExportData := {
  ed_name : string;
  ed_source_file : string;
  ed_duration : Q;
  ed_frame_count : nat;
  ed_frames : list Frame;
  ed_export_timestamp : string;
  ed_format_version : string
}.

Record ExportInfo := {
  usd_file : string;
  json_file : string;
  recommended_workflow : string;
  metahuman_compatible : bool
}.

(** The dict written by [_export_metadata]. *)
Record Metadata := {
  animation_name : string;
  source_audio : string;
  duration_seconds : Q;
  md_frame_count : nat;
  frame_rate : Q;
  blendshape_count : nat;
  export_info : ExportInfo
}.

(** What a file written by the script holds.  A USD stage holds the
    [blendShapeWeights] attribute when it was created, with its
    [(time, weights)] samples in the order of the [Set] calls. *)
Inductive content :=
| UsdStage (blendShapeWeights : option (list (Q * list Q)))
| JsonAnimation (export_data : ExportData)
| JsonMetadata (metadata : Metadata).

(** The observable effects of a run, in program order. *)
Inductive event :=
| Log (lvl : level) (m : message)
| ReadBytes (p : Path.t)
| ProcessAudioStreamCall (requests : list AudioStream)
| Mkdir (p : Path.t)
| WriteFile (p : Path.t) (c : content).

Inductive result (A : Type) :=
| Return (a : A)
| Raise (e : exn).

Arguments Return {A} a.
Arguments Raise {A} e.

(** A computation: the events it performed and how it ended. *)
Definition M (A : Type) : Type := list event * result A.

Definition ret {A} (a : A) : M A := ([], Return a).

Definition raise {A} (e : exn) : M A := ([], Raise e).

Definition emit (ev : event) : M unit := ([ev], Return tt).

Definition bind {A B} (m : M A) (k : A -> M B) : M B :=
  match m with
  | (tr, Return a) => let (tr', r) := k a in (tr ++ tr', r)
  | (tr, Raise e) => (tr, Raise e)
  end.

(** [try: m  except Exception as e: handler e]. *)
Definition try_except {A} (m : M A) (handler : exn -> M A) : M A :=
  match m with
  | (tr, Return a) => (tr, Return a)
  | (tr, Raise e) => let (tr', r) := handler e in (tr ++ tr', r)
  end.

Definition trace {A} (m : M A) : list event := fst m.

Definition outcome {A} (m : M A) : result A := snd m.

Declare Scope py_scope.
Delimit Scope py_scope with py.

Notation "x <- m ;; k" := (bind m (fun x => k))
  (at level 100, m at next level, right associativity) : py_scope.
Notation "m ;; k" := (bind m (fun _ => k))
  (at level 100, right associativity) : py_scope.

Local Open Scope py_scope.

Definition logger (lvl : level) (m : message) : M unit := emit (Log lvl m).

(** ** The environment of a run *)

(** The file system and the service as the script sees them.  A field
    answers the call of the same name; an operation that can fail gives
    the exception it raises. *)
Record Env := {
  NVIDIA_SDK_AVAILABLE : bool;
  exists_ : Path.t -> bool;
  (** the directory entries, in the order the file system lists them *)
  iterdir : Path.t -> list string;
  read_bytes : Path.t -> result Py.bytes;
  mkdir : Path.t -> option exn;
  (** creating and writing a file *)
  open_w : Path.t -> option exn;
  cwd : Path.t;
  (** [stub.ProcessAudioStream]: the responses that arrive, and the
      exception that ends the stream when it does not end normally *)
  ProcessAudioStream :
    list AudioStream -> Z -> list pb.Response * option exn
}.

(** The attributes of [Audio2FaceUnrealProcessor] that the methods read.
    The stub is not among them: the methods are modelled on a processor
    whose stub is set, which is how [main] runs them, and the service
    behind the stub is [ProcessAudioStream] of the environment.  (On a
    processor that was never connected, [self.stub] is [None] and the
    code raises an [AttributeError] where it calls the service.) *)
Record Processor := {
  audio2face_url : string;
  timeout : Z
}.

(** The [options] dict; no method reads it. *)
Definition Options := list (string * string).

(** ** [_process_with_nvidia_sdk] *)

Definition chunk_size : nat := 4096.

(** The stream header: audio format and face parameters. *)
Definition header : AudioStreamHeader := {|
  audio_header := {|
    audio_format := AUDIO_FORMAT_PCM;
    channel_count := 1;
    samples_per_second := 16000;
    bits_per_sample := 16
  |};
  face_params := {|
    float_params := [
      ("upperFaceStrength", 1%Q);
      ("lowerFaceStrength", (12 # 10)%Q);
      ("faceMaskLevel", (6 # 10)%Q);
      ("skinStrength", 1%Q);
      ("eyelidOpenOffset", (6 # 100)%Q);
      ("lipOpenOffset", (- 2 # 100)%Q)
    ]
  |}
|}.

(** The messages appended by the loop
    [for i in range(0, len(audio_data), chunk_size)]. *)
Definition audio_chunks (audio_data : Py.bytes) : list AudioStream :=
  map
    (fun chunk => audio_with_emotion {| audio_buffer := chunk |})
    (Py.slices audio_data chunk_size).

(** The list [requests] when the stream is opened. *)
Definition requests (audio_data : Py.bytes) : list AudioStream :=
  [audio_stream_header header] ++ audio_chunks audio_data ++ [end_of_audio].

(** The body of [if response.HasField('animation_data')] up to
    [frame_data]: the nested probing of the response, with the defaults
    [time_code = 0] and [blendshape_weights = []]. *)
Definition frame_data (animation_data : pb.AnimationData) : M Frame :=
  tw <-
    match pb.skel_animation animation_data with
    | Some skel_animation =>
        match pb.blend_shape_weights skel_animation with
        | Some blend_shape_weights_list =>
            match blend_shape_weights_list with
            | blend_shape_weights :: _ =>
                let time_code :=
                  match pb.time_code blend_shape_weights with
                  | Some t => t
                  | None => 0%Q
                  end in
                match pb.values blend_shape_weights with
                | Some values =>
                    logger DEBUG (Extracted_weights (List.length values) time_code) ;;
                    ret (time_code, values)
                | None =>
                    logger WARNING No_values_field ;;
                    logger DEBUG Available_fields ;;
                    ret (time_code, [])
                end
            | [] =>
                logger WARNING Weights_list_is_empty ;;
                ret (0%Q, [])
            end
        | None =>
            logger WARNING No_blend_shape_weights_field ;;
            ret (0%Q, [])
        end
    | None =>
        logger WARNING No_skel_animation_field ;;
        ret (0%Q, [])
    end ;;
  ret {| time_code := fst tw; blendshape_weights := snd tw |}.

(** The body of [async for response in response_stream], over the
    responses that arrive. *)
Fixpoint collect (responses : list pb.Response) (animation_frames : list Frame)
  : M (list Frame) :=
  match responses with
  | [] => ret animation_frames
  | response :: rest =>
      match pb.animation_data response with
      | Some animation_data =>
          frame <- frame_data animation_data ;;
          let animation_frames := animation_frames ++ [frame] in
          (if List.length animation_frames mod 100 =? 0
           then logger INFO
                  (Processed_frames (List.length animation_frames) (time_code frame)
                     (List.length (blendshape_weights frame)))
           else ret tt) ;;
          collect rest animation_frames
      | None => collect rest animation_frames
      end
  end.

(** The whole [async for]: the responses, then the end of the stream. *)
Definition async_for (response_stream : list pb.Response * option exn)
  (animation_frames : list Frame) : M (list Frame) :=
  animation_frames <- collect (fst response_stream) animation_frames ;;
  match snd response_stream with
  | Some e => raise e
  | None => ret animation_frames
  end.

Definition _process_with_nvidia_sdk (env : Env) (self : Processor)
  (wav_file : Path.t) (options : Options) : M AnimationResult :=
  logger INFO Using_NVIDIA_ACE_SDK ;;
  emit (ReadBytes wav_file) ;;
  audio_data <- ([], read_bytes env wav_file) ;;
  let requests := requests audio_data in
  animation_frames <-
    try_except
      (emit (ProcessAudioStreamCall requests) ;;
       async_for (ProcessAudioStream env requests (timeout self)) [])
      (fun e =>
         match e with
         | AioRpcError _ => logger ERROR (gRPC_error e) ;; raise e
         | _ => raise e
         end) ;;
  duration <-
    match animation_frames with
    | _ :: _ =>
        match Py.max (map time_code animation_frames) with
        | Some m => ret m
        | None => raise (ValueError "max() arg is an empty sequence")
        end
    | [] => ret 0%Q
    end ;;
  ret {|
    source_file := Path.str wav_file;
    frames := animation_frames;
    duration := duration;
    frame_count := List.length animation_frames;
    warning := None
  |}.

(** ** [_process_with_custom_grpc] *)

Definition _process_with_custom_grpc (wav_file : Path.t) (options : Options)
  : M AnimationResult :=
  logger INFO Using_custom_gRPC ;;
  ret {|
    source_file := Path.str wav_file;
    frames := [];
    duration := 0%Q;
    frame_count := 0;
    warning := Some "Custom gRPC not implemented - install nvidia_ace SDK"
  |}.

(** ** The three exports *)

(** A call that creates and writes the file at [p]. *)
Definition write (env : Env) (p : Path.t) (c : content) : M unit :=
  match open_w env p with
  | Some e => raise e
  | None => emit (WriteFile p c)
  end.

(** The samples set on [weights_attr]: one per frame with a non-empty
    weight list, at [time * 30]. *)
Definition usd_samples (frames : list Frame) : list (Q * list Q) :=
  let time_samples := map time_code frames in
  let blendshape_data := map blendshape_weights frames in
  flat_map
    (fun tw : Q * list Q =>
       let (time, weights) := tw in
       let usd_time := (time * 30)%Q in
       match weights with
       | [] => []
       | _ :: _ => [(usd_time, weights)]
       end)
    (combine time_samples blendshape_data).

Definition _export_as_usd (env : Env) (animation_data : AnimationResult)
  (base_name : string) (export_dir : Path.t) (options : Options)
  : M (option Path.t) :=
  try_except
    (let usd_path := Path.div export_dir (base_name ++ "_animation.usd")%string in
     let weights_attr :=
       match frames animation_data with
       | [] => None
       | _ :: _ => Some (usd_samples (frames animation_data))
       end in
     write env usd_path (UsdStage weights_attr) ;;
     logger INFO (Generated_USD_file (Path.name usd_path)) ;;
     ret (Some usd_path))
    (fun e => logger ERROR (Failed_to_export_USD e) ;; ret None).

Definition _export_as_json (env : Env) (animation_data : AnimationResult)
  (base_name : string) (export_dir : Path.t) (options : Options)
  : M (option Path.t) :=
  try_except
    (let json_path := Path.div export_dir (base_name ++ "_animation.json")%string in
     let export_data := {|
       ed_name := base_name;
       ed_source_file := source_file animation_data;
       ed_duration := duration animation_data;
       ed_frame_count := frame_count animation_data;
       ed_frames := frames animation_data;
       ed_export_timestamp := Path.str (Path.div (cwd env) "timestamp");
       ed_format_version := "1.0"
     |} in
     write env json_path (JsonAnimation export_data) ;;
     logger INFO (Generated_JSON_file (Path.name json_path)) ;;
     ret (Some json_path))
    (fun e => logger ERROR (Failed_to_export_JSON e) ;; ret None).

(** The dict [metadata] of [_export_metadata].  The division of
    ['frame_rate'] is Python's: it raises [ZeroDivisionError] on a zero
    duration, so it is the test [duration > 0] in front of it that keeps
    the expression from raising. *)
Definition metadata (animation_data : AnimationResult) (base_name : string)
  : M Metadata :=
  frame_rate <-
    (if Py.gtb (duration animation_data) 0
     then
       match
         Py.truediv (inject_Z (Z.of_nat (frame_count animation_data)))
           (duration animation_data)
       with
       | Some quotient => ret quotient
       | None => raise (ZeroDivisionError "division by zero")
       end
     else ret 0%Q) ;;
  ret {|
    animation_name := base_name;
    source_audio := Path.name_of_str (source_file animation_data);
    duration_seconds := duration animation_data;
    md_frame_count := frame_count animation_data;
    frame_rate := frame_rate;
    blendshape_count :=
      match frames animation_data with
      | frame :: _ => List.length (blendshape_weights frame)
      | [] => 0
      end;
    export_info := {|
      usd_file := (base_name ++ "_animation.usd")%string;
      json_file := (base_name ++ "_animation.json")%string;
      recommended_workflow :=
        "Import USD into Unreal or use JSON with custom Python script";
      metahuman_compatible := true
    |}
  |}.

Definition _export_metadata (env : Env) (animation_data : AnimationResult)
  (base_name : string) (export_dir : Path.t) (options : Options)
  : M (option Path.t) :=
  try_except
    (let meta_path := Path.div export_dir (base_name ++ "_metadata.json")%string in
     metadata <- metadata animation_data base_name ;;
     write env meta_path (JsonMetadata metadata) ;;
     logger INFO (Generated_metadata (Path.name meta_path)) ;;
     ret (Some meta_path))
    (fun e => logger ERROR (Failed_to_export_metadata e) ;; ret None).

(** [if file: generated_files.append(file)]. *)
Definition append_if (generated_files : list Path.t) (file : option Path.t)
  : list Path.t :=
  match file with
  | Some p => generated_files ++ [p]
  | None => generated_files
  end.

Definition _generate_animation_assets (env : Env)
  (animation_data : AnimationResult) (base_name : string)
  (export_dir : Path.t) (options : Options) : M (list Path.t) :=
  let generated_files := [] in
  usd_file <- _export_as_usd env animation_data base_name export_dir options ;;
  let generated_files := append_if generated_files usd_file in
  json_file <- _export_as_json env animation_data base_name export_dir options ;;
  let generated_files := append_if generated_files json_file in
  meta_file <- _export_metadata env animation_data base_name export_dir options ;;
  let generated_files := append_if generated_files meta_file in
  ret generated_files.

(** ** [process_workspace] *)

(** [audio_dir.glob('*.wav')]: the entries whose name ends in [.wav], in
    the order the file system lists them. *)
Definition glob_wav (env : Env) (audio_dir : Path.t) : list Path.t :=
  map (Path.div audio_dir)
    (filter (fun n => Py.endswith n ".wav") (iterdir env audio_dir)).

(** The [try] block of the loop body: the animation data of one file,
    by the SDK path or by the fallback path. *)
Definition animation_data_of (env : Env) (self : Processor)
  (wav_file : Path.t) (options : Options) : M AnimationResult :=
  if NVIDIA_SDK_AVAILABLE env
  then _process_with_nvidia_sdk env self wav_file options
  else _process_with_custom_grpc wav_file options.

(** The [try] block up to [asset_files]: the assets of one file. *)
Definition asset_files_of (env : Env) (self : Processor) (export_dir : Path.t)
  (options : Options) (wav_file : Path.t) : M (list Path.t) :=
  animation_data <- animation_data_of env self wav_file options ;;
  _generate_animation_assets env animation_data (Path.stem wav_file)
    export_dir options.

(** The loop [for i, wav_file in enumerate(wav_files, 1)]; [n] is
    [len(wav_files)] of the whole list. *)
Fixpoint process_each (env : Env) (self : Processor) (export_dir : Path.t)
  (options : Options) (n i : nat) (wav_files : list Path.t)
  (generated_assets : list Path.t) : M (list Path.t) :=
  match wav_files with
  | [] => ret generated_assets
  | wav_file :: rest =>
      logger INFO (Processing i n (Path.name wav_file)) ;;
      generated_assets <-
        try_except
          (asset_files <- asset_files_of env self export_dir options wav_file ;;
           ret (generated_assets ++ asset_files))
          (fun e =>
             logger ERROR (Failed_to_process (Path.name wav_file) e) ;;
             ret generated_assets) ;;
      process_each env self export_dir options n (S i) rest generated_assets
  end.

Definition process_workspace (env : Env) (self : Processor)
  (workspace_path : Path.t) (options : option Options) : M (list Path.t) :=
  let options := match options with Some o => o | None => [] end in
  let audio_dir := Path.div workspace_path "audio" in
  if negb (exists_ env audio_dir)
  then raise (ValueError ("Audio directory not found: " ++ Path.str audio_dir)%string)
  else
    let wav_files := glob_wav env audio_dir in
    match wav_files with
    | [] => raise (ValueError ("No WAV files found in " ++ Path.str audio_dir)%string)
    | _ :: _ =>
        let wav_files := Path.sort wav_files in
        logger INFO (Found_WAV_files (List.length wav_files)) ;;
        let export_dir := Path.div workspace_path "unreal_assets" in
        emit (Mkdir export_dir) ;;
        match mkdir env export_dir with Some e => raise e | None => ret tt end ;;
        generated_assets <-
          process_each env self export_dir options (List.length wav_files) 1
            wav_files [] ;;
        logger INFO (Generated_animation_assets (List.length generated_assets)) ;;
        ret generated_assets
    end.

(** ** The callers: [connect_to_audio2face], [process_single_file], [close], [main] *)

(** The log records of the callers, one constructor per call of
    [logger]. *)
Inductive notice :=
| Connected_to (url : string)
| SDK_required
| Failed_to_connect (e : exn)
| Processing_single_file (name : string)
| Generated_assets_for (n : nat) (name : string)
| Processing_failed (e : exn).

(** What [main] writes to the terminal: one constructor per call of
    [print], and the two texts of the argument parser (the help, and the
    usage with the error of a refused command line). *)
Inductive printed :=
| Parser_help
| Parser_usage_error
| Input_path_does_not_exist (input_path : Path.t)
| Failed_to_connect_to_service
| Single_file_must_be_WAV (input_path : Path.t)
| Processing_complete
| Generated_assets_count (n : nat)
| Asset_bullet (asset : Path.t)
| Next_steps
| Next_step_import_USD
| Next_step_apply_animations
| Next_step_render.

(** The observable effects of the callers; [Inner] is an event of the
    methods above. *)
Inductive effect :=
| Inner (ev : event)
| Notice (lvl : level) (m : notice)
| Print (line : printed)
| SetLevel (lvl : level)
| InsecureChannel (target : string)
| ChannelClose (target : string)
| SafeLoad (config : Path.t).

(** How a caller ends: it returns, raises an exception that
    [except Exception] catches, or leaves through [sys.exit]. *)
Inductive Ending (A : Type) :=
| Done (a : A)
| Failed (e : exn)
| SystemExit (code : Z).

Arguments Done {A} a.
Arguments Failed {A} e.
Arguments SystemExit {A} code.

(** The attributes of the processor that [connect_to_audio2face] sets;
    a channel and a stub are named by their target. *)
Record Connection := {
  channel : option string;
  stub : option string
}.

Definition not_connected : Connection := {| channel := None; stub := None |}.

Record Run (A : Type) := {
  effects : list effect;
  ending : Ending A;
  connection : Connection
}.

Arguments effects {A} r.
Arguments ending {A} r.
Arguments connection {A} r.

(** A caller: from the connection attributes to its effects, its ending
    and the attributes it leaves. *)
Definition P (A : Type) : Type := Connection -> Run A.

Definition pret {A} (a : A) : P A :=
  fun c => {| effects := []; ending := Done a; connection := c |}.

Definition praise {A} (e : exn) : P A :=
  fun c => {| effects := []; ending := Failed e; connection := c |}.

(** [sys.exit(code)]. *)
Definition sys_exit {A} (code : Z) : P A :=
  fun c => {| effects := []; ending := SystemExit code; connection := c |}.

Definition perform (ef : effect) : P unit :=
  fun c => {| effects := [ef]; ending := Done tt; connection := c |}.

(** A run that comes after the effects [efs]. *)
Definition prepend {A} (efs : list effect) (r : Run A) : Run A :=
  {| effects := efs ++ effects r;
     ending := ending r;
     connection := connection r |}.

Definition pbind {A B} (m : P A) (k : A -> P B) : P B :=
  fun c =>
    let r := m c in
    match ending r with
    | Done a => prepend (effects r) (k a (connection r))
    | Failed e =>
        {| effects := effects r; ending := Failed e; connection := connection r |}
    | SystemExit code =>
        {| effects := effects r;
           ending := SystemExit code;
           connection := connection r |}
    end.

(** [try: m  except Exception as e: handler e]; [SystemExit] is not an
    [Exception] and passes through. *)
Definition ptry {A} (m : P A) (handler : exn -> P A) : P A :=
  fun c =>
    let r := m c in
    match ending r with
    | Failed e => prepend (effects r) (handler e (connection r))
    | _ => r
    end.

(** [try: m  finally: cleanup]: the clean-up runs however [m] ends, and
    [m]'s ending stands unless the clean-up itself raises or exits. *)
Definition pfinally {A} (m : P A) (cleanup : P unit) : P A :=
  fun c =>
    let r := m c in
    let r' := cleanup (connection r) in
    {| effects := effects r ++ effects r';
       ending :=
         match ending r' with
         | Done _ => ending r
         | Failed e => Failed e
         | SystemExit code => SystemExit code
         end;
       connection := connection r' |}.

(** A method of the layer above, run by a caller. *)
Definition lift {A} (m : M A) : P A :=
  fun c =>
    {| effects := map Inner (trace m);
       ending :=
         match outcome m with
         | Return a => Done a
         | Raise e => Failed e
         end;
       connection := c |}.

Declare Scope caller_scope.
Delimit Scope caller_scope with caller.

Notation "x <~ m ;~ k" := (pbind m (fun x => k))
  (at level 100, m at next level, right associativity) : caller_scope.
Notation "m ;~ k" := (pbind m (fun _ => k))
  (at level 100, right associativity) : caller_scope.

Local Open Scope caller_scope.

Definition notify (lvl : level) (m : notice) : P unit := perform (Notice lvl m).

Definition print (line : printed) : P unit := perform (Print line).

(** What the callers use besides [Env]: the creation of a channel, which
    gives the exception it raises, and [yaml.safe_load] on an opened
    configuration file, which gives the loaded value ([None] for an empty
    document) or the exception raised by [open] or by the loader. *)
Record Host := {
  insecure_channel : string -> option exn;
  safe_load : Path.t -> result (option Options)
}.

Definition connect_to_audio2face (env : Env) (host : Host) (self : Processor)
  : P bool :=
  ptry
    (if NVIDIA_SDK_AVAILABLE env
     then
       perform (InsecureChannel (audio2face_url self)) ;~
       match insecure_channel host (audio2face_url self) with
       | Some e => praise e
       | None =>
           (fun _ =>
              {| effects := [];
                 ending := Done tt;
                 connection :=
                   {| channel := Some (audio2face_url self);
                      stub := Some (audio2face_url self) |} |}) ;~
           notify INFO (Connected_to (audio2face_url self)) ;~
           pret true
       end
     else
       notify ERROR SDK_required ;~
       pret false)
    (fun e =>
       notify ERROR (Failed_to_connect e) ;~
       pret false).

(** [close]; closing a channel is taken not to raise. *)
Definition close : P unit :=
  fun c =>
    match channel c with
    | Some target => perform (ChannelClose target) c
    | None => pret tt c
    end.

(** [process_single_file], on a connected processor as above: the
    method does not touch the connection attributes. *)
Definition process_single_file (env : Env) (self : Processor)
  (wav_file : Path.t) (options : option Options) : P (list Path.t) :=
  let options := match options with Some o => o | None => [] end in
  if negb (exists_ env wav_file) || negb (String.eqb (Path.suffix wav_file) ".wav")
  then praise (ValueError ("Invalid WAV file: " ++ Path.str wav_file)%string)
  else
    let workspace_path := Path.parent (Path.parent wav_file) in
    let export_dir := Path.div workspace_path "unreal_assets" in
    perform (Inner (Mkdir export_dir)) ;~
    match mkdir env export_dir with Some e => praise e | None => pret tt end ;~
    notify INFO (Processing_single_file (Path.name wav_file)) ;~
    ptry
      (animation_data <~ lift (animation_data_of env self wav_file options) ;~
       asset_files <~
         lift
           (_generate_animation_assets env animation_data (Path.stem wav_file)
              export_dir options) ;~
       notify INFO
         (Generated_assets_for (List.length asset_files) (Path.name wav_file)) ;~
       pret asset_files)
      (fun e =>
         perform (Inner (Log ERROR (Failed_to_process (Path.name wav_file) e))) ;~
         praise e).

(** The parsed command line; [input_path] and [config] are the paths
    made from the arguments, and [config] is [None] when the option is
    absent or empty. *)
Record Args := {
  input_path : Path.t;
  single : bool;
  arg_audio2face_url : string;
  arg_timeout : Z;
  config : option Path.t;
  verbose : bool
}.

(** The [for asset in generated_assets: print(...)] loop. *)
Fixpoint print_assets (generated_assets : list Path.t) : P unit :=
  match generated_assets with
  | [] => pret tt
  | asset :: rest => print (Asset_bullet asset) ;~ print_assets rest
  end.

(** [Audio2FaceUnrealProcessor(...)]: a new processor has no channel and
    no stub. *)
Definition new_processor : P unit :=
  fun _ => {| effects := []; ending := Done tt; connection := not_connected |}.

(** The command line, by what the parser built in [main] makes of it:
    it is accepted and gives the parsed arguments, or it asks for the
    help ([-h], [--help]), or it is refused (no input path, an unknown
    option, a [--timeout] that is not an integer). *)
Inductive CommandLine :=
| Accepted (args : Args)
| Help_requested
| Refused.

(** [parser.parse_args()]: the parser prints the help and leaves with
    status 0, or prints the usage with the error and leaves with status
    2, or returns the parsed arguments. *)
Definition parse_args (command_line : CommandLine) : P Args :=
  match command_line with
  | Accepted args => pret args
  | Help_requested => print Parser_help ;~ sys_exit 0
  | Refused => print Parser_usage_error ;~ sys_exit 2
  end.

(** [main].  It runs the methods on the processor that it has connected
    itself: it leaves before any processing when the connection fails.
    [print] and the closing of the channel are taken not to raise. *)
Definition main (env : Env) (host : Host) (command_line : CommandLine)
  : P unit :=
  args <~ parse_args command_line ;~
  (if verbose args then perform (SetLevel DEBUG) else pret tt) ;~
  let input_path := input_path args in
  if negb (exists_ env input_path)
  then
    print (Input_path_does_not_exist input_path) ;~
    sys_exit 1
  else
    let processor :=
      {| audio2face_url := arg_audio2face_url args; timeout := arg_timeout args |} in
    new_processor ;~
    pfinally
      (ptry
         (connected <~ connect_to_audio2face env host processor ;~
          (if negb connected
           then print Failed_to_connect_to_service ;~ sys_exit 1
           else pret tt) ;~
          options <~
            match config args with
            | Some config_path =>
                if exists_ env config_path
                then perform (SafeLoad config_path) ;~
                     lift ([], safe_load host config_path)
                else pret (Some [])
            | None => pret (Some [])
            end ;~
          generated_assets <~
            (if single args || String.eqb (Path.suffix input_path) ".wav"
             then
               (if negb (String.eqb (Path.suffix input_path) ".wav")
                then print (Single_file_must_be_WAV input_path) ;~ sys_exit 1
                else pret tt) ;~
               process_single_file env processor input_path options
             else
               lift (process_workspace env processor input_path options)) ;~
          print Processing_complete ;~
          print (Generated_assets_count (List.length generated_assets)) ;~
          print_assets generated_assets ;~
          print Next_steps ;~
          print Next_step_import_USD ;~
          print Next_step_apply_animations ;~
          print Next_step_render)
         (fun e =>
            notify ERROR (Processing_failed e) ;~
            sys_exit 1))
      close.

(** ** Vocabulary of the properties *)

(** The blend-shape-weights collection of a response's animation data,
    when the nested path to it exists. *)
Definition weights_collection (animation_data : pb.AnimationData)
  : option (list pb.FloatArrayWithTimeCode) :=
  match pb.skel_animation animation_data with
  | Some skel_animation => pb.blend_shape_weights skel_animation
  | None => None
  end.

(** The animation data of the responses that carry some, in arrival
    order. *)
Definition carried (responses : list pb.Response) : list pb.AnimationData :=
  flat_map
    (fun response =>
       match pb.animation_data response with
       | Some animation_data => [animation_data]
       | None => []
       end)
    responses.

(** The frame with no weights and time code 0. *)
Definition empty_frame : Frame := {| time_code := 0%Q; blendshape_weights := [] |}.

(** The file names announced by the [Processing i/n: name] records of a
    trace, in order. *)
Definition processing_order (tr : list event) : list string :=
  flat_map
    (fun ev =>
       match ev with
       | Log INFO (Processing _ _ name) => [name]
       | _ => []
       end)
    tr.

(** The calls of [stub.ProcessAudioStream] in a trace. *)
Definition stream_calls (tr : list event) : list (list AudioStream) :=
  flat_map
    (fun ev =>
       match ev with
       | ProcessAudioStreamCall requests => [requests]
       | _ => []
       end)
    tr.

(** An event that is not a [Processing i/n: name] record. *)
Definition unannounced (ev : event) : bool :=
  match ev with
  | Log _ (Processing _ _ _) => false
  | _ => true
  end.

(** The assets that one file adds to [generated_assets]: those of its
    [try] block, or none when the block raises. *)
Definition assets_added (env : Env) (self : Processor) (export_dir : Path.t)
  (options : Options) (wav_file : Path.t) : list Path.t :=
  match outcome (asset_files_of env self export_dir options wav_file) with
  | Return asset_files => asset_files
  | Raise _ => []
  end.

(** An event that is neither a [Processing i/n: name] record nor a call
    of the service. *)
Definition quiet (ev : event) : bool :=
  match ev with
  | Log _ (Processing _ _ _) => false
  | ProcessAudioStreamCall _ => false
  | _ => true
  end.

(** The three asset paths of an animation named [base_name], in the
    order in which they are exported. *)
Definition asset_paths (export_dir : Path.t) (base_name : string) : list Path.t :=
  [ Path.div export_dir (base_name ++ "_animation.usd")%string;
    Path.div export_dir (base_name ++ "_animation.json")%string;
    Path.div export_dir (base_name ++ "_metadata.json")%string ].

(** Whether a file can be created and written at [p]. *)
Definition writable (env : Env) (p : Path.t) : bool :=
  match open_w env p with
  | None => true
  | Some _ => false
  end.

(** The paths of the files written in a trace, in order. *)
Definition written (tr : list event) : list Path.t :=
  flat_map
    (fun ev =>
       match ev with
       | WriteFile p _ => [p]
       | _ => []
       end)
    tr.

(** The frame counts reported by the [Processed n frames] records of a
    trace, in order. *)
Definition progress_reports (tr : list event) : list nat :=
  flat_map
    (fun ev =>
       match ev with
       | Log INFO (Processed_frames n _ _) => [n]
       | _ => []
       end)
    tr.

(** A frame with at least one weight. *)
Definition has_weights (f : Frame) : bool :=
  match blendshape_weights f with
  | [] => false
  | _ :: _ => true
  end.

(** The events of the methods inside the effects of a caller. *)
Definition inner_events (efs : list effect) : list event :=
  flat_map
    (fun ef =>
       match ef with
       | Inner ev => [ev]
       | _ => []
       end)
    efs.

(** The targets of the channels closed by a caller. *)
Definition channels_closed (efs : list effect) : list string :=
  flat_map
    (fun ef =>
       match ef with
       | ChannelClose target => [target]
       | _ => []
       end)
    efs.



(** What the configuration step of [main] gives: the value loaded from
    the configuration file when one is named and exists, the empty
    options otherwise, or the exception of the load. *)
Definition configured (env : Env) (host : Host) (args : Args)
  : result (option Options) :=
  match config args with
  | Some config_path =>
      if exists_ env config_path then safe_load host config_path
      else Return (Some [])
  | None => Return (Some [])
  end.

(** The effect of the configuration step: the load of the file, when
    one is named and exists. *)
Definition config_effects (env : Env) (args : Args) : list effect :=
  match config args with
  | Some config_path =>
      if exists_ env config_path then [SafeLoad config_path] else []
  | None => []
  end.

(** The lines that [main] prints after a processing that returned. *)
Definition report (generated_assets : list Path.t) : list effect :=
  [Print Processing_complete;
   Print (Generated_assets_count (List.length generated_assets))]
  ++ map (fun asset => Print (Asset_bullet asset)) generated_assets
  ++ [Print Next_steps; Print Next_step_import_USD;
      Print Next_step_apply_animations; Print Next_step_render].

(** A log record of the response loop: any record but the gRPC error
    record. *)
Definition loop_record (ev : event) : bool :=
  match ev with
  | Log _ (gRPC_error _) => false
  | Log _ _ => true
  | _ => false
  end.

(** The audio files read in a trace, in order. *)
Definition files_read (tr : list event) : list Path.t :=
  flat_map
    (fun ev =>
       match ev with
       | ReadBytes p => [p]
       | _ => []
       end)
    tr.

(** An event of the exchange with the service: a log record or a call
    of the service. *)
Definition exchange_event (ev : event) : bool :=
  match ev with
  | Log _ _ => true
  | ProcessAudioStreamCall _ => true
  | _ => false
  end.

(** The assets that the exports of one file can write: those of its
    three asset paths that are writable when its animation data is
    returned, none when its processing raises. *)
Definition assets_written (env : Env) (self : Processor) (export_dir : Path.t)
  (options : Options) (wav_file : Path.t) : list Path.t :=
  match outcome (animation_data_of env self wav_file options) with
  | Return _ =>
      filter (writable env) (asset_paths export_dir (Path.stem wav_file))
  | Raise _ => []
  end.

(** The events of the [i]-th file of a batch of [n]: its [Processing]
    record, the events of its [try] block and, when the block raises,
    the error record of the [except] clause. *)
Definition file_events (env : Env) (self : Processor) (export_dir : Path.t)
  (options : Options) (n : nat) (numbered : nat * Path.t) : list event :=
  let (i, wav_file) := numbered in
  Log INFO (Processing i n (Path.name wav_file))
  :: trace (asset_files_of env self export_dir options wav_file)
  ++ match outcome (asset_files_of env self export_dir options wav_file) with
     | Return _ => []
     | Raise e => [Log ERROR (Failed_to_process (Path.name wav_file) e)]
     end.

(** ** A workspace for the examples *)

Module Demo.

Definition self : Processor := {| audio2face_url := "0.0.0.0:52000"; timeout := 180 |}.

Definition workspace : Path.t := ["workspace"; "wavtest"].

Definition audio_dir : Path.t := Path.div workspace "audio".

(** A response with one entry of two weights at time code [t]. *)
Definition response (t : Q) : pb.Response := {|
  pb.animation_data := Some {|
    pb.skel_animation := Some {|
      pb.blend_shape_weights := Some [
        {| pb.time_code := Some t; pb.values := Some [(1 # 2)%Q; (1 # 4)%Q] |}
      ]
    |}
  |}
|}.

(** A response that carries animation data with an empty collection. *)
Definition hollow : pb.Response := {|
  pb.animation_data := Some {|
    pb.skel_animation := Some {| pb.blend_shape_weights := Some [] |}
  |}
|}.

(** A response without animation data. *)
Definition status : pb.Response := {| pb.animation_data := None |}.

(** The service: the stream breaks after two frames when the first audio
    chunk starts with the byte [0x02]. *)
Definition service (requests : list AudioStream) (timeout : Z)
  : list pb.Response * option exn :=
  match requests with
  | _ :: audio_with_emotion {| audio_buffer := x02 :: _ |} :: _ =>
      ([response 0; response 1], Some (AioRpcError "UNAVAILABLE"))
  | _ => ([response 0; status; hollow; response 2; response 1], None)
  end.

(** Three audio files and a text file; [02_b.wav] starts with [0x02],
    [empty.wav] has no bytes. *)
Definition env (entries : list string) : Env := {|
  NVIDIA_SDK_AVAILABLE := true;
  exists_ := fun _ => true;
  iterdir := fun _ => entries;
  read_bytes := fun p =>
    if String.eqb (Path.name p) "02_b.wav" then Return [x02; x00; x01]
    else if String.eqb (Path.name p) "empty.wav" then Return []
    else Return [x01; x00; x01; x00];
  mkdir := fun _ => None;
  open_w := fun _ => None;
  cwd := ["home"];
  ProcessAudioStream := service
|}.

Definition listing : list string := ["02_b.wav"; "notes.txt"; "03_c.wav"; "01_a.wav"].

Definition listing' : list string := ["01_a.wav"; "02_b.wav"; "03_c.wav"; "notes.txt"].

(** The same workspace without the SDK. *)
Definition env_without_sdk : Env := {|
  NVIDIA_SDK_AVAILABLE := false;
  exists_ := exists_ (env listing);
  iterdir := iterdir (env listing);
  read_bytes := read_bytes (env listing);
  mkdir := mkdir (env listing);
  open_w := open_w (env listing);
  cwd := cwd (env listing);
  ProcessAudioStream := ProcessAudioStream (env listing)
|}.

(** A host on which channels open and no configuration is loaded. *)
Definition host : Host := {|
  insecure_channel := fun _ => None;
  safe_load := fun _ => Return None
|}.

(** An environment whose export paths cannot be written, except the
    metadata files. *)
Definition env_read_only : Env := {|
  NVIDIA_SDK_AVAILABLE := true;
  exists_ := exists_ (env listing);
  iterdir := iterdir (env listing);
  read_bytes := read_bytes (env listing);
  mkdir := mkdir (env listing);
  open_w := fun p =>
    if Py.endswith (Path.name p) "_metadata.json" then None
    else Some (OSError "Read-only file system");
  cwd := cwd (env listing);
  ProcessAudioStream := ProcessAudioStream (env listing)
|}.

(** An environment without the workspace. *)
Definition env_nothing : Env := {|
  NVIDIA_SDK_AVAILABLE := true;
  exists_ := fun _ => false;
  iterdir := fun _ => [];
  read_bytes := fun _ => Raise (OSError "No such file or directory");
  mkdir := fun _ => Some (OSError "Permission denied");
  open_w := fun _ => Some (OSError "Permission denied");
  cwd := cwd (env listing);
  ProcessAudioStream := ProcessAudioStream (env listing)
|}.

(** The workspace on a file system where no directory can be made. *)
Definition env_no_mkdir : Env := {|
  NVIDIA_SDK_AVAILABLE := true;
  exists_ := exists_ (env listing);
  iterdir := iterdir (env listing);
  read_bytes := read_bytes (env listing);
  mkdir := fun _ => Some (OSError "Permission denied");
  open_w := open_w (env listing);
  cwd := cwd (env listing);
  ProcessAudioStream := ProcessAudioStream (env listing)
|}.

(** The command line [workspace/wavtest]. *)
Definition batch_args : Args := {|
  input_path := workspace;
  single := false;
  arg_audio2face_url := "0.0.0.0:52000";
  arg_timeout := 180;
  config := None;
  verbose := false
|}.

(** The command line [workspace/wavtest/audio/NAME --single]. *)
Definition single_args (name : string) : Args := {|
  input_path := Path.div audio_dir name;
  single := true;
  arg_audio2face_url := "0.0.0.0:52000";
  arg_timeout := 180;
  config := None;
  verbose := false
|}.

(** The command line [workspace/wavtest --config NAME]. *)
Definition config_args (name : string) : Args := {|
  input_path := workspace;
  single := false;
  arg_audio2face_url := "0.0.0.0:52000";
  arg_timeout := 180;
  config := Some [name];
  verbose := true
|}.

(** A host on which channels open, [a2f.yaml] loads and any other
    configuration file is refused by the loader. *)
Definition host_with_config : Host := {|
  insecure_channel := fun _ => None;
  safe_load := fun p =>
    if String.eqb (Path.name p) "a2f.yaml" then Return (Some [])
    else Raise (ValueError "could not determine a constructor")
|}.

End Demo.

(** * Properties *)

(** ** Chunking a byte buffer *)

Section Chunking.

Variable A : Type.
Variable c : nat.
Hypothesis c_pos : 0 < c.

Lemma firstn_plus (a b : nat) (l : list A) :
  firstn (a + b) l = firstn a l ++ firstn b (skipn a l).
Proof.
  revert l. induction a as [|a IH]; intros l; [reflexivity|].
  destruct l as [|x l]; simpl.
  - now rewrite firstn_nil.
  - now rewrite IH.
Qed.

Lemma slices_seq (data : list A) :
  Py.slices data c =
  map (fun k => Py.slice data (k * c) (k * c + c))
    (seq 0 (Py.range_len 0 (List.length data) c)).
Proof.
  unfold Py.slices, Py.range. rewrite map_map. reflexivity.
Qed.

Lemma concat_slices_upto (data : list A) (n : nat) :
  List.concat (map (fun k => Py.slice data (k * c) (k * c + c)) (seq 0 n))
  = firstn (n * c) data.
Proof.
  induction n as [|n IH]; [reflexivity|].
  rewrite seq_S, map_app, concat_app, IH. simpl.
  rewrite app_nil_r. unfold Py.slice.
  replace (n * c + c - n * c) with c by lia.
  replace (c + n * c) with (n * c + c) by lia.
  now rewrite firstn_plus.
Qed.

Lemma range_len_covers (L : nat) : L <= Py.range_len 0 L c * c.
Proof.
  unfold Py.range_len. destruct (0 <? L) eqn:E.
  - apply Nat.ltb_lt in E.
    pose proof (Nat.div_mod_eq (L - 1 - 0) c) as D.
    pose proof (Nat.mod_upper_bound (L - 1 - 0) c ltac:(lia)) as B.
    nia.
  - apply Nat.ltb_ge in E. lia.
Qed.

Lemma range_len_tight (L : nat) : Py.range_len 0 L c * c < L + c.
Proof.
  unfold Py.range_len. destruct (0 <? L) eqn:E.
  - apply Nat.ltb_lt in E.
    pose proof (Nat.div_mod_eq (L - 1 - 0) c) as D.
    nia.
  - simpl. lia.
Qed.

Lemma concat_slices (data : list A) : List.concat (Py.slices data c) = data.
Proof.
  rewrite slices_seq, concat_slices_upto.
  apply firstn_all2, range_len_covers.
Qed.

Lemma length_slices (data : list A) :
  List.length (Py.slices data c) = Py.range_len 0 (List.length data) c.
Proof.
  unfold Py.slices, Py.range. now rewrite !length_map, length_seq.
Qed.

Lemma nth_error_slices (data : list A) (k : nat) (s : list A) :
  nth_error (Py.slices data c) k = Some s ->
  k < Py.range_len 0 (List.length data) c /\
  s = Py.slice data (k * c) (k * c + c).
Proof.
  rewrite slices_seq. intros H.
  assert (K : k < Py.range_len 0 (List.length data) c).
  { assert (N : nth_error
               (map (fun k => Py.slice data (k * c) (k * c + c))
                  (seq 0 (Py.range_len 0 (List.length data) c))) k <> None)
      by congruence.
    apply nth_error_Some in N.
    now rewrite length_map, length_seq in N. }
  split; [exact K|].
  rewrite nth_error_map, nth_error_seq in H.
  apply Nat.ltb_lt in K. rewrite K in H. simpl in H. now inversion H.
Qed.

Lemma length_slice (data : list A) (i j : nat) :
  List.length (Py.slice data i j) = Nat.min (j - i) (List.length data - i).
Proof.
  unfold Py.slice. now rewrite length_firstn, length_skipn.
Qed.

(** The number of slices is the ceiling of [len(data) / c]. *)
Lemma range_len_ceiling (L : nat) :
  Z.of_nat (Py.range_len 0 L c) = Qceiling (Z.of_nat L # Pos.of_nat c).
Proof.
  pose proof (range_len_covers L) as Hc. pose proof (range_len_tight L) as Ht.
  set (n := Py.range_len 0 L c) in *.
  unfold Qceiling, Qfloor, Qopp. simpl Qnum. simpl Qden.
  assert (P : Z.pos (Pos.of_nat c) = Z.of_nat c).
  { lia. }
  rewrite P.
  symmetry. apply Z.opp_inj. rewrite Z.opp_involutive. symmetry.
  apply Z.div_unique with (r := (Z.of_nat n * Z.of_nat c - Z.of_nat L)%Z); nia.
Qed.

Lemma length_nth_slice (data : list A) (k : nat) (s : list A) :
  nth_error (Py.slices data c) k = Some s ->
  0 < List.length s <= c /\
  (S k < List.length (Py.slices data c) -> List.length s = c).
Proof.
  intros H. apply nth_error_slices in H. destruct H as [K ->].
  rewrite length_slices, length_slice.
  pose proof (range_len_tight (List.length data)) as T.
  set (n := Py.range_len 0 (List.length data) c) in *.
  assert (B : k * c < List.length data) by nia.
  split; [lia|]. intros K'.
  assert (B' : k * c + c <= List.length data) by nia.
  lia.
Qed.

End Chunking.

Lemma chunk_size_pos : 0 < chunk_size.
Proof. apply Nat.ltb_lt. vm_compute. reflexivity. Qed.

(** C1: the request sequence built from an audio buffer of length L is
    one header message, then ceil(L/4096) audio-chunk messages, then one
    end-of-stream marker; the chunk payloads concatenated in order are the
    buffer itself, no chunk is empty or longer than 4096 bytes, and every
    chunk but the last has exactly 4096 bytes. *)
Theorem requests_header_chunks_end (audio_data : Py.bytes) :
  exists chunks : list Py.bytes,
    requests audio_data =
      [audio_stream_header header]
      ++ map (fun chunk => audio_with_emotion {| audio_buffer := chunk |}) chunks
      ++ [end_of_audio]
    /\ Z.of_nat (List.length chunks)
       = Qceiling (Z.of_nat (List.length audio_data) # 4096)
    /\ List.concat chunks = audio_data
    /\ (forall k chunk, nth_error chunks k = Some chunk ->
          0 < List.length chunk <= 4096 /\
          (S k < List.length chunks -> List.length chunk = 4096)).
Proof.
  exists (Py.slices audio_data chunk_size).
  split; [reflexivity|]. unfold Py.bytes in *. split; [|split].
  - rewrite length_slices.
    apply (range_len_ceiling chunk_size chunk_size_pos).
  - apply concat_slices, chunk_size_pos.
  - intros k chunk H. change 4096 with chunk_size.
    now apply length_nth_slice; [apply chunk_size_pos|].
Qed.

(** ** The monad *)

Lemma outcome_bind {A B} (m : M A) (k : A -> M B) (a : A) :
  outcome m = Return a -> outcome (bind m k) = outcome (k a).
Proof.
  destruct m as [tr r]. simpl. intros ->. simpl. now destruct (k a).
Qed.

Lemma outcome_bind_Raise {A B} (m : M A) (k : A -> M B) (e : exn) :
  outcome m = Raise e -> outcome (bind m k) = Raise e.
Proof.
  destruct m as [tr r]. simpl. now intros ->.
Qed.

Lemma trace_bind {A B} (m : M A) (k : A -> M B) (a : A) :
  outcome m = Return a -> trace (bind m k) = trace m ++ trace (k a).
Proof.
  destruct m as [tr r]. simpl. intros ->. simpl. now destruct (k a).
Qed.

Lemma trace_bind_Raise {A B} (m : M A) (k : A -> M B) (e : exn) :
  outcome m = Raise e -> trace (bind m k) = trace m.
Proof.
  destruct m as [tr r]. simpl. now intros ->.
Qed.

Lemma outcome_try_Return {A} (m : M A) (h : exn -> M A) (a : A) :
  outcome m = Return a -> outcome (try_except m h) = Return a.
Proof.
  destruct m as [tr r]. simpl. now intros ->.
Qed.

Lemma outcome_try_Raise {A} (m : M A) (h : exn -> M A) (e : exn) :
  outcome m = Raise e -> outcome (try_except m h) = outcome (h e).
Proof.
  destruct m as [tr r]. simpl. intros ->. simpl. now destruct (h e).
Qed.

Lemma trace_try_Return {A} (m : M A) (h : exn -> M A) (a : A) :
  outcome m = Return a -> trace (try_except m h) = trace m.
Proof.
  destruct m as [tr r]. simpl. now intros ->.
Qed.

Lemma trace_try_Raise {A} (m : M A) (h : exn -> M A) (e : exn) :
  outcome m = Raise e -> trace (try_except m h) = trace m ++ trace (h e).
Proof.
  destruct m as [tr r]. simpl. intros ->. simpl. now destruct (h e).
Qed.

(** A step that only logs or records an event returns [tt]. *)
Ltac run_unit := rewrite (outcome_bind _ _ tt) by reflexivity.

(** ** Frames *)

(** Building a frame never raises. *)
Lemma frame_data_returns (ad : pb.AnimationData) :
  exists f, outcome (frame_data ad) = Return f.
Proof.
  unfold frame_data.
  destruct ad as [[[[[|[t [v|]] ws]|]]|]]; simpl; eauto.
Qed.

(** C3: when the blend-shape-weights collection is non-empty, the frame
    takes its weights from the value sequence of the first entry alone
    (empty when the value field is unset) and its time code from that
    entry's time code (0 when unset); later entries are ignored. *)
Theorem frame_from_first_entry (ad : pb.AnimationData)
  (first : pb.FloatArrayWithTimeCode) (others : list pb.FloatArrayWithTimeCode) :
  weights_collection ad = Some (first :: others) ->
  outcome (frame_data ad) =
  Return {|
    time_code :=
      match pb.time_code first with Some t => t | None => 0%Q end;
    blendshape_weights :=
      match pb.values first with Some v => v | None => [] end
  |}.
Proof.
  unfold weights_collection, frame_data.
  destruct ad as [[[ws]|]]; simpl; [|discriminate].
  intros ->. destruct first as [t [v|]]; reflexivity.
Qed.

Lemma frame_from_first_entry_witness :
  outcome
    (frame_data {|
       pb.skel_animation := Some {|
         pb.blend_shape_weights := Some [
           {| pb.time_code := None; pb.values := Some [(1 # 2)%Q; (3 # 4)%Q] |};
           {| pb.time_code := Some 7%Q; pb.values := Some [(1 # 8)%Q] |}
         ]
       |}
     |})
  = Return {| time_code := 0%Q; blendshape_weights := [(1 # 2)%Q; (3 # 4)%Q] |}.
Proof.
  exact (frame_from_first_entry
           {| pb.skel_animation := Some {|
                pb.blend_shape_weights := Some [
                  {| pb.time_code := None;
                     pb.values := Some [(1 # 2)%Q; (3 # 4)%Q] |};
                  {| pb.time_code := Some 7%Q; pb.values := Some [(1 # 8)%Q] |}
                ]
              |}
           |}
           {| pb.time_code := None; pb.values := Some [(1 # 2)%Q; (3 # 4)%Q] |}
           [{| pb.time_code := Some 7%Q; pb.values := Some [(1 # 8)%Q] |}]
           eq_refl).
Defined.

Lemma frame_of_missing_weights (ad : pb.AnimationData) :
  weights_collection ad = None \/ weights_collection ad = Some [] ->
  outcome (frame_data ad) = Return empty_frame.
Proof.
  unfold weights_collection, frame_data.
  destruct ad as [[[[[|w ws]|]]|]]; simpl; intros [H|H];
    try discriminate; reflexivity.
Qed.

(** ** The response loop *)

Lemma collect_carrying (response : pb.Response) (ad : pb.AnimationData)
  (f : Frame) (rest : list pb.Response) (animation_frames : list Frame) :
  pb.animation_data response = Some ad ->
  outcome (frame_data ad) = Return f ->
  outcome (collect (response :: rest) animation_frames)
  = outcome (collect rest (animation_frames ++ [f])).
Proof.
  intros Ha Hf. simpl. rewrite Ha.
  rewrite (outcome_bind _ _ f Hf). cbv zeta.
  rewrite (outcome_bind _ _ tt); [reflexivity | now destruct (_ =? 0)].
Qed.

Lemma collect_not_carrying (response : pb.Response)
  (rest : list pb.Response) (animation_frames : list Frame) :
  pb.animation_data response = None ->
  collect (response :: rest) animation_frames = collect rest animation_frames.
Proof.
  intros Ha. simpl. now rewrite Ha.
Qed.

(** The loop returns the frames it started with, followed by one frame
    per response that carries animation data, in arrival order. *)
Lemma collect_returns (responses : list pb.Response) :
  forall animation_frames, exists new_frames,
    outcome (collect responses animation_frames)
    = Return (animation_frames ++ new_frames)
    /\ Forall2 (fun ad f => outcome (frame_data ad) = Return f)
         (carried responses) new_frames.
Proof.
  induction responses as [|response rest IH]; intros animation_frames.
  - exists []. split; [simpl; now rewrite app_nil_r | constructor].
  - destruct (pb.animation_data response) as [ad|] eqn:Ha.
    + destruct (frame_data_returns ad) as [f Hf].
      destruct (IH (animation_frames ++ [f])) as [later [Hl Hc]].
      exists (f :: later). split.
      * rewrite (collect_carrying _ _ _ _ _ Ha Hf), Hl.
        now rewrite <- app_assoc.
      * unfold carried. simpl. rewrite Ha. simpl. now constructor.
    + destruct (IH animation_frames) as [later [Hl Hc]].
      exists later. split.
      * now rewrite (collect_not_carrying _ _ _ Ha).
      * unfold carried. simpl. now rewrite Ha.
Qed.

(** C2: a response that carries animation data whose blend-shape-weights
    collection is absent or empty adds the frame with no weights and time
    code 0 to the collected frames, and the loop goes on with the rest of
    the stream: it returns, with that frame right after the frames
    collected before it. *)
Theorem missing_weights_recorded_and_stream_continues
  (response : pb.Response) (ad : pb.AnimationData)
  (rest : list pb.Response) (animation_frames : list Frame) :
  pb.animation_data response = Some ad ->
  weights_collection ad = None \/ weights_collection ad = Some [] ->
  outcome (frame_data ad) = Return empty_frame
  /\ outcome (collect (response :: rest) animation_frames)
     = outcome (collect rest (animation_frames ++ [empty_frame]))
  /\ exists later,
       outcome (collect (response :: rest) animation_frames)
       = Return (animation_frames ++ empty_frame :: later).
Proof.
  intros Ha Hw.
  pose proof (frame_of_missing_weights ad Hw) as Hf.
  pose proof (collect_carrying _ _ _ rest animation_frames Ha Hf) as Hc.
  split; [exact Hf|]. split; [exact Hc|].
  destruct (collect_returns rest (animation_frames ++ [empty_frame]))
    as [later [Hl _]].
  exists later. rewrite Hc, Hl. now rewrite <- app_assoc.
Qed.

Lemma missing_weights_recorded_and_stream_continues_witness :
  outcome
    (frame_data
       {| pb.skel_animation := Some {| pb.blend_shape_weights := Some [] |} |})
  = Return empty_frame
  /\ outcome (collect [Demo.hollow; Demo.response 1] [])
     = outcome (collect [Demo.response 1] [empty_frame])
  /\ exists later,
       outcome (collect [Demo.hollow; Demo.response 1] [])
       = Return (empty_frame :: later).
Proof.
  exact (missing_weights_recorded_and_stream_continues Demo.hollow
           {| pb.skel_animation := Some {| pb.blend_shape_weights := Some [] |} |}
           [Demo.response 1] [] eq_refl (or_intror eq_refl)).
Defined.

(** The batch example of one second of audio: 32000 bytes give 8 audio
    chunks, between the header and the end-of-stream marker. *)
Example one_second_of_audio :
  List.length (audio_chunks (repeat x00 32000)) = 8
  /\ List.length (requests (repeat x00 32000)) = 10.
Proof. split; vm_compute; reflexivity. Qed.

(** ** [max] *)

Lemma gtb_true (x y : Q) : Py.gtb x y = true -> (y < x)%Q.
Proof.
  unfold Py.gtb. destruct (x ?= y)%Q eqn:E; try discriminate.
  intros _. now apply Qgt_alt.
Qed.

Lemma gtb_false (x y : Q) : Py.gtb x y = false -> (x <= y)%Q.
Proof.
  unfold Py.gtb. intros H. apply Qle_alt.
  destruct (x ?= y)%Q; congruence.
Qed.

Lemma max_loop_spec (items : list Q) :
  forall maxitem,
    In (Py.max_loop maxitem items) (maxitem :: items)
    /\ Forall (fun x => (x <= Py.max_loop maxitem items)%Q) (maxitem :: items).
Proof.
  induction items as [|item rest IH]; intros maxitem; simpl.
  - split; [now left|]. constructor; [apply Qle_refl|constructor].
  - destruct (IH (if Py.gtb item maxitem then item else maxitem)) as [Hin Hall].
    inversion Hall as [|? ? Hhd Htl]; subst. split.
    + destruct Hin as [Hin|Hin]; [|now right; right].
      rewrite <- Hin. destruct (Py.gtb item maxitem); [right|]; now left.
    + destruct (Py.gtb item maxitem) eqn:G.
      * apply gtb_true in G. constructor; [|now constructor].
        eapply Qle_trans; [apply Qlt_le_weak, G | exact Hhd].
      * apply gtb_false in G. constructor; [exact Hhd|]. constructor; [|exact Htl].
        eapply Qle_trans; [exact G | exact Hhd].
Qed.

(** ** The result of [_process_with_nvidia_sdk] *)

Section Aggregation.

Variable env : Env.
Variable self : Processor.
Variable wav_file : Path.t.
Variable options : Options.
Variable audio_data : Py.bytes.
Variable responses : list pb.Response.

Hypothesis read_ok : read_bytes env wav_file = Return audio_data.

(** When the stream ends normally the frames of the loop are returned,
    with the largest time code as the duration. *)
Lemma process_returns (animation_frames : list Frame) :
  ProcessAudioStream env (requests audio_data) (timeout self) = (responses, None) ->
  outcome (collect responses []) = Return animation_frames ->
  outcome (_process_with_nvidia_sdk env self wav_file options) =
  Return {|
    source_file := Path.str wav_file;
    frames := animation_frames;
    duration :=
      match map time_code animation_frames with
      | [] => 0%Q
      | t :: ts => Py.max_loop t ts
      end;
    frame_count := List.length animation_frames;
    warning := None
  |}.
Proof.
  intros Hs Hc. unfold _process_with_nvidia_sdk.
  do 2 run_unit.
  rewrite (outcome_bind ([], read_bytes env wav_file) _ audio_data read_ok). cbv zeta.
  rewrite (outcome_bind _ _ animation_frames).
  - destruct animation_frames as [|f fs]; reflexivity.
  - apply outcome_try_Return.
    run_unit. unfold async_for.
    rewrite Hs. simpl fst. simpl snd.
    now rewrite (outcome_bind _ _ animation_frames Hc).
Qed.

(** When the stream ends with an exception, the exception is what the
    method gives, whatever was collected. *)
Lemma process_raises (e : exn) :
  ProcessAudioStream env (requests audio_data) (timeout self) = (responses, Some e) ->
  outcome (_process_with_nvidia_sdk env self wav_file options) = Raise e.
Proof.
  intros Hs. unfold _process_with_nvidia_sdk.
  do 2 run_unit.
  rewrite (outcome_bind ([], read_bytes env wav_file) _ audio_data read_ok). cbv zeta.
  apply outcome_bind_Raise.
  destruct (collect_returns responses []) as [fs [Hc _]].
  rewrite (outcome_try_Raise _ _ e).
  - now destruct e.
  - run_unit. unfold async_for.
    rewrite Hs. simpl fst. simpl snd.
    now rewrite (outcome_bind _ _ _ Hc).
Qed.

End Aggregation.

(** C4: when the response stream ends normally, the method returns a
    result whose frame count is the number of responses that carry
    animation data, whose frames are the frames of those responses in
    arrival order, and whose duration is the largest time code among the
    frames; with no such response the frame count and the duration are
    0. *)
Theorem result_frame_count_order_duration (env : Env) (self : Processor)
  (wav_file : Path.t) (options : Options) (audio_data : Py.bytes)
  (responses : list pb.Response) :
  read_bytes env wav_file = Return audio_data ->
  ProcessAudioStream env (requests audio_data) (timeout self) = (responses, None) ->
  exists r,
    outcome (_process_with_nvidia_sdk env self wav_file options) = Return r
    /\ frame_count r = List.length (carried responses)
    /\ frame_count r = List.length (frames r)
    /\ Forall2 (fun ad f => outcome (frame_data ad) = Return f)
         (carried responses) (frames r)
    /\ (frames r <> [] -> In (duration r) (map time_code (frames r)))
    /\ Forall (fun f => (time_code f <= duration r)%Q) (frames r)
    /\ (carried responses = [] -> frame_count r = 0 /\ duration r = 0%Q).
Proof.
  intros Hr Hs.
  destruct (collect_returns responses []) as [fs [Hc HF]]. simpl in Hc.
  eexists. split.
  { exact (process_returns env self wav_file options audio_data responses
             Hr fs Hs Hc). }
  simpl. pose proof (Forall2_length HF) as Hlen.
  split; [now symmetry|]. split; [reflexivity|]. split; [exact HF|].
  destruct fs as [|f fs]; simpl.
  - split; [congruence|]. split; [constructor|]. intros _. now split.
  - destruct (max_loop_spec (map time_code fs) (time_code f)) as [Hin Hall].
    split; [intros _; exact Hin|]. split.
    + change (time_code f :: map time_code fs) with (map time_code (f :: fs)) in Hall.
      exact (proj1 (Forall_map time_code _ (f :: fs)) Hall).
    + intros E. rewrite E in Hlen. discriminate.
Qed.

Lemma result_frame_count_order_duration_witness :
  exists r,
    outcome (_process_with_nvidia_sdk (Demo.env Demo.listing) Demo.self
               (Path.div Demo.audio_dir "01_a.wav") []) = Return r
    /\ frame_count r = 4
    /\ frame_count r = List.length (frames r)
    /\ Forall2 (fun ad f => outcome (frame_data ad) = Return f)
         (carried (fst (Demo.service (requests [x01; x00; x01; x00]) 180)))
         (frames r)
    /\ (frames r <> [] -> In (duration r) (map time_code (frames r)))
    /\ Forall (fun f => (time_code f <= duration r)%Q) (frames r)
    /\ (carried (fst (Demo.service (requests [x01; x00; x01; x00]) 180)) = [] ->
        frame_count r = 0 /\ duration r = 0%Q).
Proof.
  exact (result_frame_count_order_duration (Demo.env Demo.listing) Demo.self
           (Path.div Demo.audio_dir "01_a.wav") [] [x01; x00; x01; x00]
           (fst (Demo.service (requests [x01; x00; x01; x00]) 180))
           eq_refl eq_refl).
Defined.

(** C5: when the response stream ends with a transport failure, the
    method raises that failure and returns no result, although the loop
    had collected one frame per response that carried animation data. *)
Theorem transport_failure_returns_no_result (env : Env) (self : Processor)
  (wav_file : Path.t) (options : Options) (audio_data : Py.bytes)
  (responses : list pb.Response) (e : exn) :
  read_bytes env wav_file = Return audio_data ->
  ProcessAudioStream env (requests audio_data) (timeout self)
  = (responses, Some e) ->
  (exists partial,
      outcome (collect responses []) = Return partial
      /\ List.length partial = List.length (carried responses))
  /\ outcome (_process_with_nvidia_sdk env self wav_file options) = Raise e
  /\ forall r,
       outcome (_process_with_nvidia_sdk env self wav_file options) <> Return r.
Proof.
  intros Hr Hs.
  pose proof (process_raises env self wav_file options audio_data responses
                Hr e Hs) as Hraise.
  split; [|split; [exact Hraise | intros r; rewrite Hraise; discriminate]].
  destruct (collect_returns responses []) as [fs [Hc HF]].
  exists fs. split; [exact Hc|]. symmetry. exact (Forall2_length HF).
Qed.

Lemma transport_failure_returns_no_result_witness :
  (exists partial,
      outcome (collect [Demo.response 0; Demo.response 1] []) = Return partial
      /\ List.length partial = 2)
  /\ outcome (_process_with_nvidia_sdk (Demo.env Demo.listing) Demo.self
                (Path.div Demo.audio_dir "02_b.wav") [])
     = Raise (AioRpcError "UNAVAILABLE")
  /\ forall r,
       outcome (_process_with_nvidia_sdk (Demo.env Demo.listing) Demo.self
                  (Path.div Demo.audio_dir "02_b.wav") []) <> Return r.
Proof.
  exact (transport_failure_returns_no_result (Demo.env Demo.listing) Demo.self
           (Path.div Demo.audio_dir "02_b.wav") [] [x02; x00; x01]
           [Demo.response 0; Demo.response 1] (AioRpcError "UNAVAILABLE")
           eq_refl eq_refl).
Defined.

(** ** Traces *)

Lemma trace_bind_Forall {A B} (P : event -> Prop) (m : M A) (k : A -> M B) :
  Forall P (trace m) -> (forall a, Forall P (trace (k a))) ->
  Forall P (trace (bind m k)).
Proof.
  destruct m as [tr [a|e]]; simpl; intros Hm Hk; [|exact Hm].
  specialize (Hk a). destruct (k a) as [tr' r]. simpl in *.
  apply Forall_app. now split.
Qed.

Lemma trace_try_Forall {A} (P : event -> Prop) (m : M A) (h : exn -> M A) :
  Forall P (trace m) -> (forall e, Forall P (trace (h e))) ->
  Forall P (trace (try_except m h)).
Proof.
  destruct m as [tr [a|e]]; simpl; intros Hm Hh; [exact Hm|].
  specialize (Hh e). destruct (h e) as [tr' r]. simpl in *.
  apply Forall_app. now split.
Qed.

Lemma frame_data_quiet (ad : pb.AnimationData) :
  Forall (fun ev => quiet ev = true) (trace (frame_data ad)).
Proof.
  unfold frame_data.
  destruct ad as [[[[[|[t [v|]] ws]|]]|]]; simpl; repeat constructor.
Qed.

Lemma collect_quiet (responses : list pb.Response) :
  forall animation_frames,
    Forall (fun ev => quiet ev = true) (trace (collect responses animation_frames)).
Proof.
  induction responses as [|response rest IH]; intros animation_frames; simpl.
  - constructor.
  - destruct (pb.animation_data response) as [ad|]; [|apply IH].
    apply trace_bind_Forall; [apply frame_data_quiet|]. intros f. cbv zeta.
    apply trace_bind_Forall; [|intros _; apply IH].
    destruct (_ =? 0); simpl; repeat constructor.
Qed.

Lemma stream_calls_app (tr tr' : list event) :
  stream_calls (tr ++ tr') = stream_calls tr ++ stream_calls tr'.
Proof. apply flat_map_app. Qed.

Lemma processing_order_app (tr tr' : list event) :
  processing_order (tr ++ tr') = processing_order tr ++ processing_order tr'.
Proof. apply flat_map_app. Qed.

Lemma quiet_no_calls (tr : list event) :
  Forall (fun ev => quiet ev = true) tr -> stream_calls tr = [].
Proof.
  induction 1 as [|ev tr H _ IH]; [reflexivity|].
  unfold stream_calls in *. simpl. rewrite IH.
  destruct ev; try reflexivity. discriminate.
Qed.

(** The events of [_process_with_nvidia_sdk] once the file is read: the
    two first records, the call of the service with the requests built
    from the audio, then events that are neither a call nor a
    [Processing] record. *)
Lemma process_trace (env : Env) (self : Processor) (wav_file : Path.t)
  (options : Options) (audio_data : Py.bytes) :
  read_bytes env wav_file = Return audio_data ->
  exists tr,
    trace (_process_with_nvidia_sdk env self wav_file options)
    = Log INFO Using_NVIDIA_ACE_SDK :: ReadBytes wav_file
      :: ProcessAudioStreamCall (requests audio_data) :: tr
    /\ Forall (fun ev => quiet ev = true) tr.
Proof.
  intros Hr. unfold _process_with_nvidia_sdk, async_for.
  rewrite (trace_bind _ _ tt) by reflexivity.
  rewrite (trace_bind _ _ tt) by reflexivity.
  rewrite (trace_bind ([], read_bytes env wav_file) _ audio_data Hr). cbv zeta.
  pose proof (collect_quiet
                (fst (ProcessAudioStream env (requests audio_data) (timeout self)))
                []) as Hq.
  destruct (ProcessAudioStream env (requests audio_data) (timeout self))
    as [responses failure].
  simpl fst in *. simpl snd.
  destruct (collect responses []) as [trc [fs|e]]; simpl in *.
  - destruct failure as [e|]; simpl.
    + destruct e; simpl; eexists; (split; [reflexivity|]);
        rewrite ?app_nil_r; try (apply Forall_app; split);
        try exact Hq; repeat constructor.
    + destruct fs; simpl; eexists; (split; [reflexivity|]);
        rewrite ?app_nil_r; exact Hq.
  - destruct e; simpl; eexists; (split; [reflexivity|]);
      rewrite ?app_nil_r; try (apply Forall_app; split);
      try exact Hq; repeat constructor.
Qed.

(** ** A zero-length audio buffer *)

(** C6, as stated, fails: for the file [empty.wav], which has no bytes,
    the method raises nothing; it opens the exchange with the header and
    the end-of-stream marker and returns the frames that the service
    sends back. *)
Lemma empty_audio_is_not_rejected :
  let run :=
    _process_with_nvidia_sdk (Demo.env Demo.listing) Demo.self
      (Path.div Demo.audio_dir "empty.wav") [] in
  read_bytes (Demo.env Demo.listing) (Path.div Demo.audio_dir "empty.wav")
  = Return []
  /\ (exists r, outcome run = Return r /\ frame_count r = 4)
  /\ stream_calls (trace run) = [[audio_stream_header header; end_of_audio]]
  /\ ~ (exists e, outcome run = Raise e).
Proof.
  cbv zeta. split; [reflexivity|]. split; [|split].
  - eexists. split; reflexivity.
  - reflexivity.
  - intros [e H]. discriminate H.
Qed.

(** C6, amended: a zero-length audio buffer is not rejected.  Its
    request sequence is the header followed by the end-of-stream marker,
    with no audio chunk; the exchange is opened once, with that sequence;
    the method returns a result when the response stream ends normally
    and raises the stream's exception otherwise. *)
Theorem empty_audio_opens_exchange (env : Env) (self : Processor)
  (wav_file : Path.t) (options : Options) :
  read_bytes env wav_file = Return [] ->
  requests [] = [audio_stream_header header; end_of_audio]
  /\ stream_calls (trace (_process_with_nvidia_sdk env self wav_file options))
     = [[audio_stream_header header; end_of_audio]]
  /\ (forall responses,
        ProcessAudioStream env [audio_stream_header header; end_of_audio]
          (timeout self) = (responses, None) ->
        exists r,
          outcome (_process_with_nvidia_sdk env self wav_file options) = Return r)
  /\ (forall responses e,
        ProcessAudioStream env [audio_stream_header header; end_of_audio]
          (timeout self) = (responses, Some e) ->
        outcome (_process_with_nvidia_sdk env self wav_file options) = Raise e).
Proof.
  intros Hr. split; [reflexivity|]. split; [|split].
  - destruct (process_trace env self wav_file options [] Hr) as [tr [-> Hq]].
    change (stream_calls
              ([Log INFO Using_NVIDIA_ACE_SDK; ReadBytes wav_file;
                ProcessAudioStreamCall (requests [])] ++ tr)
            = [[audio_stream_header header; end_of_audio]]).
    rewrite stream_calls_app, (quiet_no_calls tr Hq). reflexivity.
  - intros responses Hs.
    destruct (collect_returns responses []) as [fs [Hc _]].
    eexists.
    exact (process_returns env self wav_file options [] responses Hr fs Hs Hc).
  - intros responses e Hs.
    exact (process_raises env self wav_file options [] responses Hr e Hs).
Qed.

Lemma empty_audio_opens_exchange_witness :
  requests [] = [audio_stream_header header; end_of_audio]
  /\ stream_calls
       (trace (_process_with_nvidia_sdk (Demo.env Demo.listing) Demo.self
                 (Path.div Demo.audio_dir "empty.wav") []))
     = [[audio_stream_header header; end_of_audio]]
  /\ (forall responses,
        Demo.service [audio_stream_header header; end_of_audio] 180
        = (responses, None) ->
        exists r,
          outcome (_process_with_nvidia_sdk (Demo.env Demo.listing) Demo.self
                     (Path.div Demo.audio_dir "empty.wav") []) = Return r)
  /\ (forall responses e,
        Demo.service [audio_stream_header header; end_of_audio] 180
        = (responses, Some e) ->
        outcome (_process_with_nvidia_sdk (Demo.env Demo.listing) Demo.self
                   (Path.div Demo.audio_dir "empty.wav") []) = Raise e).
Proof.
  exact (empty_audio_opens_exchange (Demo.env Demo.listing) Demo.self
           (Path.div Demo.audio_dir "empty.wav") [] eq_refl).
Defined.

(** ** The fallback path *)

(** C9: without the SDK, the animation data of every file is the
    placeholder: no frames, duration 0, frame count 0 and a warning
    field.  Nothing is raised, and the only event is the log record of
    the fallback: no file is read and the service is not called. *)
Theorem fallback_returns_placeholder (env : Env) (self : Processor)
  (wav_file : Path.t) (options : Options) :
  NVIDIA_SDK_AVAILABLE env = false ->
  outcome (animation_data_of env self wav_file options) =
  Return {|
    source_file := Path.str wav_file;
    frames := [];
    duration := 0%Q;
    frame_count := 0;
    warning := Some "Custom gRPC not implemented - install nvidia_ace SDK"
  |}
  /\ trace (animation_data_of env self wav_file options)
     = [Log INFO Using_custom_gRPC]
  /\ animation_data_of env self wav_file options
     = _process_with_custom_grpc wav_file options.
Proof.
  intros H. unfold animation_data_of. rewrite H. repeat split.
Qed.

Lemma fallback_returns_placeholder_witness :
  outcome (animation_data_of Demo.env_without_sdk Demo.self
             (Path.div Demo.audio_dir "01_a.wav") []) =
  Return {|
    source_file := "workspace/wavtest/audio/01_a.wav";
    frames := [];
    duration := 0%Q;
    frame_count := 0;
    warning := Some "Custom gRPC not implemented - install nvidia_ace SDK"
  |}
  /\ trace (animation_data_of Demo.env_without_sdk Demo.self
              (Path.div Demo.audio_dir "01_a.wav") [])
     = [Log INFO Using_custom_gRPC]
  /\ animation_data_of Demo.env_without_sdk Demo.self
       (Path.div Demo.audio_dir "01_a.wav") []
     = _process_with_custom_grpc (Path.div Demo.audio_dir "01_a.wav") [].
Proof.
  exact (fallback_returns_placeholder Demo.env_without_sdk Demo.self
           (Path.div Demo.audio_dir "01_a.wav") [] eq_refl).
Defined.

(** ** The metadata export *)

Lemma gtb_of_lt (x y : Q) : (y < x)%Q -> Py.gtb x y = true.
Proof.
  intros H. unfold Py.gtb. apply Qgt_alt in H. now rewrite H.
Qed.

Lemma gtb_of_eq (x y : Q) : (x == y)%Q -> Py.gtb x y = false.
Proof.
  intros H. unfold Py.gtb. apply Qeq_alt in H. now rewrite H.
Qed.

Lemma write_trace (env : Env) (p : Path.t) (c : content) :
  open_w env p = None -> write env p c = ([WriteFile p c], Return tt).
Proof.
  intros H. unfold write. now rewrite H.
Qed.

Lemma truediv_positive (x y : Q) :
  (0 < y)%Q -> Py.truediv x y = Some (x / y)%Q.
Proof.
  intros H. unfold Py.truediv. apply Qgt_alt in H. now rewrite H.
Qed.

Lemma truediv_zero (x y : Q) : (y == 0)%Q -> Py.truediv x y = None.
Proof.
  intros H. unfold Py.truediv. apply Qeq_alt in H. now rewrite H.
Qed.

(** Building the metadata never raises: the division is only reached
    with a positive duration.  The record has the fields of the
    result, the guarded frame rate and the weight count of the first
    frame. *)
Lemma metadata_returns (animation_data : AnimationResult) (base_name : string) :
  exists m,
    metadata animation_data base_name = ([], Return m)
    /\ animation_name m = base_name
    /\ duration_seconds m = duration animation_data
    /\ md_frame_count m = frame_count animation_data
    /\ frame_rate m
       = (if Py.gtb (duration animation_data) 0
          then (inject_Z (Z.of_nat (frame_count animation_data))
                / duration animation_data)%Q
          else 0%Q)
    /\ blendshape_count m
       = match frames animation_data with
         | frame :: _ => List.length (blendshape_weights frame)
         | [] => 0
         end.
Proof.
  unfold metadata.
  destruct (Py.gtb (duration animation_data) 0) eqn:G.
  - rewrite (truediv_positive _ _ (gtb_true _ _ G)).
    eexists. split; [reflexivity|]. now repeat split.
  - eexists. split; [reflexivity|]. now repeat split.
Qed.

Lemma metadata_silent (P : event -> Prop) (animation_data : AnimationResult)
  (base_name : string) :
  Forall P (trace (metadata animation_data base_name)).
Proof.
  destruct (metadata_returns animation_data base_name) as (m & -> & _).
  constructor.
Qed.

(** C7: for every result the metadata is built without raising, so no
    division by zero occurs, although dividing by a zero duration would
    raise.  Its [frame_rate] is [frame_count / duration] when the
    duration is positive and 0 when the duration is 0; its
    [blendshape_count] is the number of weights of the first frame, and 0
    when there is no frame.  This record is what [_export_metadata]
    writes. *)
Theorem metadata_frame_rate_and_blendshape_count
  (animation_data : AnimationResult) (base_name : string) :
  exists m,
    metadata animation_data base_name = ([], Return m)
    /\ ((0 < duration animation_data)%Q ->
        frame_rate m
        = (inject_Z (Z.of_nat (frame_count animation_data))
           / duration animation_data)%Q)
    /\ ((duration animation_data == 0)%Q ->
        frame_rate m = 0%Q
        /\ Py.truediv (inject_Z (Z.of_nat (frame_count animation_data)))
             (duration animation_data) = None)
    /\ (forall frame rest,
          frames animation_data = frame :: rest ->
          blendshape_count m = List.length (blendshape_weights frame))
    /\ (frames animation_data = [] -> blendshape_count m = 0)
    /\ (forall env export_dir options,
          let meta_path :=
            Path.div export_dir (base_name ++ "_metadata.json")%string in
          open_w env meta_path = None ->
          _export_metadata env animation_data base_name export_dir options
          = ([WriteFile meta_path (JsonMetadata m);
              Log INFO (Generated_metadata (Path.name meta_path))],
             Return (Some meta_path))).
Proof.
  destruct (metadata_returns animation_data base_name)
    as (m & Em & _ & _ & _ & Hr & Hb).
  exists m. split; [exact Em|]. rewrite Hr, Hb.
  split; [|split; [|split; [|split]]].
  - intros H. now rewrite (gtb_of_lt _ _ H).
  - intros H. split; [now rewrite (gtb_of_eq _ _ H) | now apply truediv_zero].
  - now intros frame rest ->.
  - now intros ->.
  - intros env export_dir options meta_path H. unfold _export_metadata.
    rewrite Em. cbn [bind app]. fold meta_path.
    rewrite (write_trace _ _ _ H). reflexivity.
Qed.

(** ** The order of paths *)

Lemma string_compare_refl (a : string) : String.compare a a = Eq.
Proof. now apply String_as_OT.cmp_eq. Qed.

Lemma string_compare_lt_trans (a b c : string) :
  String.compare a b = Lt -> String.compare b c = Lt -> String.compare a c = Lt.
Proof.
  intros H1 H2. apply String_as_OT.cmp_lt.
  apply String_as_OT.cmp_lt in H1. apply String_as_OT.cmp_lt in H2.
  eapply String_as_OT.lt_trans; eassumption.
Qed.

Lemma path_compare_refl (p : Path.t) : Path.compare p p = Eq.
Proof.
  induction p as [|a p IH]; simpl; [reflexivity|].
  now rewrite string_compare_refl.
Qed.

Lemma path_compare_eq (p : Path.t) :
  forall q, Path.compare p q = Eq -> p = q.
Proof.
  induction p as [|a p IH]; intros [|b q]; simpl; try discriminate;
    [reflexivity|].
  destruct (String.compare a b) eqn:E; try discriminate.
  intros H. apply String_as_OT.cmp_eq in E. subst. f_equal. now apply IH.
Qed.

Lemma path_compare_antisym (p : Path.t) :
  forall q, Path.compare p q = CompOpp (Path.compare q p).
Proof.
  induction p as [|a p IH]; intros [|b q]; simpl; try reflexivity.
  rewrite (String.compare_antisym b a).
  destruct (String.compare a b); simpl; auto.
Qed.

Lemma path_compare_lt_trans (p : Path.t) :
  forall q r,
    Path.compare p q = Lt -> Path.compare q r = Lt -> Path.compare p r = Lt.
Proof.
  induction p as [|a p IH]; intros [|b q] [|c r]; simpl; try discriminate;
    try reflexivity.
  destruct (String.compare a b) eqn:Eab; try discriminate;
    destruct (String.compare b c) eqn:Ebc; try discriminate; intros H1 H2.
  - apply String_as_OT.cmp_eq in Eab, Ebc. subst.
    rewrite string_compare_refl. eapply IH; eassumption.
  - apply String_as_OT.cmp_eq in Eab. subst. now rewrite Ebc.
  - apply String_as_OT.cmp_eq in Ebc. subst. now rewrite Eab.
  - now rewrite (string_compare_lt_trans _ _ _ Eab Ebc).
Qed.

Lemma path_le_cases (p q : Path.t) :
  Path.le p q <-> (Path.compare p q = Lt \/ p = q).
Proof.
  unfold Path.le, Path.ltb. rewrite (path_compare_antisym q p).
  destruct (Path.compare p q) eqn:E; simpl; split; intros H; try discriminate;
    auto.
  - right. now apply path_compare_eq.
  - destruct H as [H|H]; [discriminate|].
    subst. rewrite path_compare_refl in E. discriminate.
Qed.

Lemma path_le_trans (p q r : Path.t) : Path.le p q -> Path.le q r -> Path.le p r.
Proof.
  rewrite !path_le_cases. intros [H1| ->] [H2| ->]; auto.
  left. eapply path_compare_lt_trans; eassumption.
Qed.

Lemma path_le_antisym (p q : Path.t) : Path.le p q -> Path.le q p -> p = q.
Proof.
  rewrite !path_le_cases. intros [H1| ->] [H2|H2]; auto.
  rewrite path_compare_antisym, H2 in H1. discriminate.
Qed.

Lemma path_lt_le (p q : Path.t) : Path.ltb p q = true -> Path.le p q.
Proof.
  unfold Path.ltb. intros H. apply path_le_cases. left.
  now destruct (Path.compare p q).
Qed.

(** ** [sort] *)

Lemma insert_perm (x : Path.t) (l : list Path.t) :
  Permutation (Path.insert x l) (x :: l).
Proof.
  induction l as [|y l IH]; simpl; [reflexivity|].
  destruct (Path.ltb y x); [|reflexivity].
  rewrite IH. apply perm_swap.
Qed.

Lemma sort_perm (l : list Path.t) : Permutation (Path.sort l) l.
Proof.
  induction l as [|x l IH]; simpl; [reflexivity|].
  rewrite insert_perm. now constructor.
Qed.

Lemma insert_sorted (x : Path.t) (l : list Path.t) :
  StronglySorted Path.le l -> StronglySorted Path.le (Path.insert x l).
Proof.
  induction 1 as [|y l Hs IH Hy]; simpl.
  - constructor; constructor.
  - destruct (Path.ltb y x) eqn:E.
    + constructor; [exact IH|].
      apply (Permutation_Forall (Permutation_sym (insert_perm x l))).
      constructor; [now apply path_lt_le | exact Hy].
    + constructor; [now constructor|].
      constructor; [exact E|].
      eapply Forall_impl; [|exact Hy].
      intros z Hz. eapply path_le_trans; [exact E | exact Hz].
Qed.

Lemma sort_sorted (l : list Path.t) : StronglySorted Path.le (Path.sort l).
Proof.
  induction l as [|x l IH]; simpl; [constructor|].
  now apply insert_sorted.
Qed.

(** Two sorted lists with the same elements are the same list. *)
Lemma sorted_unique (l1 : list Path.t) :
  forall l2,
    StronglySorted Path.le l1 -> StronglySorted Path.le l2 ->
    Permutation l1 l2 -> l1 = l2.
Proof.
  induction l1 as [|x l1 IH]; intros l2 S1 S2 P.
  - now apply Permutation_nil in P.
  - destruct l2 as [|y l2].
    { apply Permutation_sym, Permutation_nil in P. discriminate. }
    inversion S1 as [|? ? S1' F1]; subst.
    inversion S2 as [|? ? S2' F2]; subst.
    assert (x = y) as ->.
    { assert (Ix : In x (y :: l2))
        by (eapply Permutation_in; [exact P | now left]).
      assert (Iy : In y (x :: l1))
        by (eapply Permutation_in; [apply Permutation_sym, P | now left]).
      destruct Ix as [->|Ix]; [reflexivity|].
      destruct Iy as [->|Iy]; [reflexivity|].
      rewrite Forall_forall in F1, F2.
      apply path_le_antisym; auto. }
    f_equal. apply IH; auto. now apply Permutation_cons_inv in P.
Qed.

Lemma sort_of_perm (l1 l2 : list Path.t) :
  Permutation l1 l2 -> Path.sort l1 = Path.sort l2.
Proof.
  intros P. apply sorted_unique; try apply sort_sorted.
  rewrite !sort_perm. exact P.
Qed.

(** ** Files of one directory *)

Lemma name_div (dir : Path.t) (n : string) : Path.name (Path.div dir n) = n.
Proof. apply last_last. Qed.

Lemma compare_div (dir : Path.t) (a b : string) :
  Path.compare (Path.div dir a) (Path.div dir b) = String.compare a b.
Proof.
  unfold Path.div. induction dir as [|d dir IH]; simpl.
  - now destruct (String.compare a b).
  - now rewrite string_compare_refl.
Qed.

Lemma le_div (dir : Path.t) (a b : string) :
  Path.le (Path.div dir a) (Path.div dir b) -> String.leb a b = true.
Proof.
  unfold Path.le, Path.ltb, String.leb.
  rewrite compare_div, (String.compare_antisym a b).
  now destruct (String.compare b a).
Qed.

(** Sorted paths of one directory have sorted names. *)
Lemma sorted_names (dir : Path.t) (l : list Path.t) :
  Forall (fun p => exists n, p = Path.div dir n) l ->
  StronglySorted Path.le l ->
  StronglySorted (fun a b => String.leb a b = true) (map Path.name l).
Proof.
  intros Hd Hs. induction Hs as [|p l Hs IH Hp]; simpl; [constructor|].
  inversion Hd as [|? ? [n ->] Hd']; subst.
  constructor; [now apply IH|].
  rewrite Forall_map. rewrite Forall_forall in *.
  intros q Hq. destruct (Hd' q Hq) as [m ->].
  rewrite !name_div. apply (le_div dir). now apply Hp.
Qed.

Lemma glob_wav_in_dir (env : Env) (audio_dir : Path.t) :
  Forall (fun p => exists n, p = Path.div audio_dir n) (glob_wav env audio_dir).
Proof.
  unfold glob_wav. rewrite Forall_map. apply Forall_forall. eauto.
Qed.

Lemma names_of_glob_wav (env : Env) (audio_dir : Path.t) :
  map Path.name (glob_wav env audio_dir)
  = filter (fun n => Py.endswith n ".wav") (iterdir env audio_dir).
Proof.
  unfold glob_wav. rewrite map_map.
  erewrite map_ext; [apply map_id|]. intros n. apply name_div.
Qed.

(** ** The loop over the files *)

Section Batch.

Variable env : Env.
Variable self : Processor.
Variable export_dir : Path.t.
Variable options : Options.
Variable n : nat.

(** What the loop body does to [generated_assets]. *)
Lemma try_block_outcome (wav_file : Path.t) (generated_assets : list Path.t) :
  outcome
    (try_except
       (asset_files <- asset_files_of env self export_dir options wav_file ;;
        ret (generated_assets ++ asset_files))
       (fun e =>
          logger ERROR (Failed_to_process (Path.name wav_file) e) ;;
          ret generated_assets))
  = Return
      (generated_assets ++ assets_added env self export_dir options wav_file).
Proof.
  unfold assets_added.
  destruct (outcome (asset_files_of env self export_dir options wav_file))
    as [asset_files|e] eqn:E.
  - apply outcome_try_Return. now rewrite (outcome_bind _ _ _ E).
  - rewrite (outcome_try_Raise _ _ e).
    + now rewrite app_nil_r.
    + now apply outcome_bind_Raise.
Qed.

Lemma process_each_cons (i : nat) (wav_file : Path.t) (rest : list Path.t)
  (generated_assets : list Path.t) :
  process_each env self export_dir options n i (wav_file :: rest)
    generated_assets
  = (logger INFO (Processing i n (Path.name wav_file)) ;;
     generated_assets <-
       try_except
         (asset_files <- asset_files_of env self export_dir options wav_file ;;
          ret (generated_assets ++ asset_files))
         (fun e =>
            logger ERROR (Failed_to_process (Path.name wav_file) e) ;;
            ret generated_assets) ;;
     process_each env self export_dir options n (S i) rest generated_assets).
Proof. reflexivity. Qed.

(** The loop returns the assets of every file whose [try] block
    returns, in the order of the files. *)
Lemma process_each_outcome (wav_files : list Path.t) :
  forall i generated_assets,
    outcome
      (process_each env self export_dir options n i wav_files generated_assets)
    = Return
        (generated_assets
         ++ flat_map (assets_added env self export_dir options) wav_files).
Proof.
  induction wav_files as [|wav_file rest IH]; intros i generated_assets.
  - simpl. now rewrite app_nil_r.
  - rewrite process_each_cons. run_unit.
    rewrite (outcome_bind _ _ _ (try_block_outcome wav_file generated_assets)).
    rewrite IH. simpl. now rewrite app_assoc.
Qed.

End Batch.

(** ** The events of one file *)

Lemma quiet_unannounced (tr : list event) :
  Forall (fun ev => quiet ev = true) tr ->
  Forall (fun ev => unannounced ev = true) tr.
Proof.
  apply Forall_impl. intros [lvl m| | | |]; simpl; try reflexivity.
  now destruct m.
Qed.

Lemma unannounced_no_processing (tr : list event) :
  Forall (fun ev => unannounced ev = true) tr -> processing_order tr = [].
Proof.
  induction 1 as [|ev tr H _ IH]; [reflexivity|].
  unfold processing_order in *. simpl. rewrite IH.
  destruct ev as [lvl m| | | |]; try reflexivity.
  destruct m; try discriminate; now destruct lvl.
Qed.

Lemma process_unannounced (env : Env) (self : Processor) (wav_file : Path.t)
  (options : Options) :
  Forall (fun ev => unannounced ev = true)
    (trace (_process_with_nvidia_sdk env self wav_file options)).
Proof.
  unfold _process_with_nvidia_sdk, async_for.
  apply trace_bind_Forall; [repeat constructor|]. intros _.
  apply trace_bind_Forall; [repeat constructor|]. intros _.
  apply trace_bind_Forall; [constructor|]. intros audio_data. cbv zeta.
  apply trace_bind_Forall.
  - apply trace_try_Forall.
    + apply trace_bind_Forall; [repeat constructor|]. intros _.
      apply trace_bind_Forall; [apply quiet_unannounced, collect_quiet|].
      intros fs. destruct (snd _); constructor.
    + intros e. destruct e; repeat constructor.
  - intros fs. apply trace_bind_Forall; [|intros d; constructor].
    destruct fs; [constructor|]. destruct (Py.max _); constructor.
Qed.

Lemma write_unannounced (env : Env) (p : Path.t) (c : content) :
  Forall (fun ev => unannounced ev = true) (trace (write env p c)).
Proof.
  unfold write. destruct (open_w env p); repeat constructor.
Qed.

Lemma generate_unannounced (env : Env) (animation_data : AnimationResult)
  (base_name : string) (export_dir : Path.t) (options : Options) :
  Forall (fun ev => unannounced ev = true)
    (trace (_generate_animation_assets env animation_data base_name
              export_dir options)).
Proof.
  unfold _generate_animation_assets, _export_as_usd, _export_as_json,
    _export_metadata.
  cbv zeta.
  repeat first
    [ apply metadata_silent
    | apply trace_bind_Forall
    | apply trace_try_Forall
    | apply write_unannounced
    | progress intros
    | solve [repeat constructor] ].
Qed.

Lemma asset_files_of_unannounced (env : Env) (self : Processor)
  (export_dir : Path.t) (options : Options) (wav_file : Path.t) :
  Forall (fun ev => unannounced ev = true)
    (trace (asset_files_of env self export_dir options wav_file)).
Proof.
  unfold asset_files_of, animation_data_of, _process_with_custom_grpc.
  apply trace_bind_Forall; [|intros d; apply generate_unannounced].
  destruct (NVIDIA_SDK_AVAILABLE env); [apply process_unannounced|].
  repeat constructor.
Qed.

(** The exports catch what they raise: generating the assets returns. *)
Lemma generate_returns (env : Env) (animation_data : AnimationResult)
  (base_name : string) (export_dir : Path.t) (options : Options) :
  exists generated_files,
    outcome (_generate_animation_assets env animation_data base_name
               export_dir options) = Return generated_files.
Proof.
  unfold _generate_animation_assets, _export_as_usd, _export_as_json,
    _export_metadata, write.
  cbv zeta.
  destruct (metadata_returns animation_data base_name) as (m & -> & _).
  destruct (open_w env (Path.div export_dir (base_name ++ "_animation.usd")%string));
    destruct (open_w env (Path.div export_dir (base_name ++ "_animation.json")%string));
    destruct (open_w env (Path.div export_dir (base_name ++ "_metadata.json")%string));
    simpl; eauto.
Qed.

Lemma asset_files_of_raises (env : Env) (self : Processor)
  (export_dir : Path.t) (options : Options) (wav_file : Path.t) (e : exn) :
  outcome (animation_data_of env self wav_file options) = Raise e ->
  outcome (asset_files_of env self export_dir options wav_file) = Raise e.
Proof.
  intros H. unfold asset_files_of. now apply outcome_bind_Raise.
Qed.

Lemma asset_files_of_returns (env : Env) (self : Processor)
  (export_dir : Path.t) (options : Options) (wav_file : Path.t)
  (animation_data : AnimationResult) (asset_files : list Path.t) :
  outcome (animation_data_of env self wav_file options) = Return animation_data ->
  outcome
    (_generate_animation_assets env animation_data (Path.stem wav_file)
       export_dir options) = Return asset_files ->
  outcome (asset_files_of env self export_dir options wav_file)
  = Return asset_files.
Proof.
  intros H G. unfold asset_files_of. now rewrite (outcome_bind _ _ _ H).
Qed.

(** ** The reads and the writes of one file *)

Lemma written_app (tr tr' : list event) :
  written (tr ++ tr') = written tr ++ written tr'.
Proof. apply flat_map_app. Qed.

Lemma files_read_app (tr tr' : list event) :
  files_read (tr ++ tr') = files_read tr ++ files_read tr'.
Proof. apply flat_map_app. Qed.

Lemma exchange_no_write (tr : list event) :
  Forall (fun ev => exchange_event ev = true) tr -> written tr = [].
Proof.
  induction 1 as [|ev tr H _ IH]; [reflexivity|].
  unfold written in *. simpl. rewrite IH.
  destruct ev; try reflexivity; discriminate.
Qed.

Lemma exchange_no_read (tr : list event) :
  Forall (fun ev => exchange_event ev = true) tr -> files_read tr = [].
Proof.
  induction 1 as [|ev tr H _ IH]; [reflexivity|].
  unfold files_read in *. simpl. rewrite IH.
  destruct ev; try reflexivity; discriminate.
Qed.

Lemma frame_data_exchange (ad : pb.AnimationData) :
  Forall (fun ev => exchange_event ev = true) (trace (frame_data ad)).
Proof.
  unfold frame_data.
  destruct ad as [[[[[|[t [v|]] ws]|]]|]]; simpl; repeat constructor.
Qed.

Lemma collect_exchange (responses : list pb.Response) :
  forall animation_frames,
    Forall (fun ev => exchange_event ev = true)
      (trace (collect responses animation_frames)).
Proof.
  induction responses as [|response rest IH]; intros animation_frames; simpl.
  - constructor.
  - destruct (pb.animation_data response) as [ad|]; [|apply IH].
    apply trace_bind_Forall; [apply frame_data_exchange|]. intros f.
    cbv zeta.
    apply trace_bind_Forall; [|intros _; apply IH].
    destruct (_ =? 0); simpl; repeat constructor.
Qed.

(** The SDK path reads the audio file once, at its start; what follows
    is the exchange with the service. *)
Lemma process_events (env : Env) (self : Processor) (wav_file : Path.t)
  (options : Options) :
  exists tr,
    trace (_process_with_nvidia_sdk env self wav_file options)
    = Log INFO Using_NVIDIA_ACE_SDK :: ReadBytes wav_file :: tr
    /\ Forall (fun ev => exchange_event ev = true) tr.
Proof.
  unfold _process_with_nvidia_sdk, async_for.
  rewrite (trace_bind _ _ tt) by reflexivity.
  rewrite (trace_bind _ _ tt) by reflexivity.
  eexists. split; [reflexivity|].
  apply trace_bind_Forall; [constructor|]. intros audio_data. cbv zeta.
  apply trace_bind_Forall.
  - apply trace_try_Forall.
    + apply trace_bind_Forall; [repeat constructor|]. intros _.
      apply trace_bind_Forall; [apply collect_exchange|].
      intros fs. destruct (snd _); constructor.
    + intros e. destruct e; repeat constructor.
  - intros fs. apply trace_bind_Forall; [|intros d; constructor].
    destruct fs; [constructor|]. destruct (Py.max _); constructor.
Qed.

Lemma animation_data_of_written (env : Env) (self : Processor)
  (wav_file : Path.t) (options : Options) :
  written (trace (animation_data_of env self wav_file options)) = [].
Proof.
  unfold animation_data_of. destruct (NVIDIA_SDK_AVAILABLE env); [|reflexivity].
  destruct (process_events env self wav_file options) as (tr & -> & H).
  change (written tr = []). now apply exchange_no_write.
Qed.

Lemma animation_data_of_read (env : Env) (self : Processor)
  (wav_file : Path.t) (options : Options) :
  files_read (trace (animation_data_of env self wav_file options))
  = if NVIDIA_SDK_AVAILABLE env then [wav_file] else [].
Proof.
  unfold animation_data_of. destruct (NVIDIA_SDK_AVAILABLE env); [|reflexivity].
  destruct (process_events env self wav_file options) as (tr & -> & H).
  change (wav_file :: files_read tr = [wav_file]).
  now rewrite exchange_no_read.
Qed.

(** Generating the assets returns the asset paths that can be written,
    writes exactly these and reads nothing. *)
Lemma generate_run (env : Env) (animation_data : AnimationResult)
  (base_name : string) (export_dir : Path.t) (options : Options) :
  let run :=
    _generate_animation_assets env animation_data base_name export_dir options in
  outcome run
  = Return (filter (writable env) (asset_paths export_dir base_name))
  /\ written (trace run)
     = filter (writable env) (asset_paths export_dir base_name)
  /\ files_read (trace run) = [].
Proof.
  cbv zeta.
  unfold _generate_animation_assets, _export_as_usd, _export_as_json,
    _export_metadata, write, asset_paths, writable.
  cbv zeta. simpl filter.
  destruct (metadata_returns animation_data base_name) as (m & -> & _).
  destruct (open_w env (Path.div export_dir (base_name ++ "_animation.usd")%string));
    destruct (open_w env (Path.div export_dir (base_name ++ "_animation.json")%string));
    destruct (open_w env (Path.div export_dir (base_name ++ "_metadata.json")%string));
    repeat split; reflexivity.
Qed.

Lemma asset_files_of_outcome (env : Env) (self : Processor)
  (export_dir : Path.t) (options : Options) (wav_file : Path.t) :
  outcome (asset_files_of env self export_dir options wav_file)
  = match outcome (animation_data_of env self wav_file options) with
    | Return _ =>
        Return (filter (writable env) (asset_paths export_dir (Path.stem wav_file)))
    | Raise e => Raise e
    end.
Proof.
  unfold asset_files_of.
  destruct (outcome (animation_data_of env self wav_file options))
    as [animation_data|e] eqn:E.
  - rewrite (outcome_bind _ _ _ E). apply generate_run.
  - now apply outcome_bind_Raise.
Qed.

Lemma assets_added_written (env : Env) (self : Processor)
  (export_dir : Path.t) (options : Options) (wav_file : Path.t) :
  assets_added env self export_dir options wav_file
  = assets_written env self export_dir options wav_file.
Proof.
  unfold assets_added, assets_written. rewrite asset_files_of_outcome.
  now destruct (outcome (animation_data_of env self wav_file options)).
Qed.

Lemma asset_files_of_written (env : Env) (self : Processor)
  (export_dir : Path.t) (options : Options) (wav_file : Path.t) :
  written (trace (asset_files_of env self export_dir options wav_file))
  = assets_written env self export_dir options wav_file.
Proof.
  unfold asset_files_of, assets_written.
  pose proof (animation_data_of_written env self wav_file options) as W.
  destruct (outcome (animation_data_of env self wav_file options))
    as [animation_data|e] eqn:E.
  - rewrite (trace_bind _ _ _ E), written_app, W. apply generate_run.
  - now rewrite (trace_bind_Raise _ _ _ E).
Qed.

Lemma asset_files_of_read (env : Env) (self : Processor)
  (export_dir : Path.t) (options : Options) (wav_file : Path.t) :
  files_read (trace (asset_files_of env self export_dir options wav_file))
  = if NVIDIA_SDK_AVAILABLE env then [wav_file] else [].
Proof.
  unfold asset_files_of.
  pose proof (animation_data_of_read env self wav_file options) as R.
  destruct (outcome (animation_data_of env self wav_file options))
    as [animation_data|e] eqn:E.
  - rewrite (trace_bind _ _ _ E), files_read_app, R.
    destruct (generate_run env animation_data (Path.stem wav_file) export_dir
                options) as (_ & _ & ->).
    apply app_nil_r.
  - now rewrite (trace_bind_Raise _ _ _ E).
Qed.

Section BatchTrace.

Variable env : Env.
Variable self : Processor.
Variable export_dir : Path.t.
Variable options : Options.
Variable n : nat.

Lemma try_block_unannounced (wav_file : Path.t) (generated_assets : list Path.t) :
  Forall (fun ev => unannounced ev = true)
    (trace
       (try_except
          (asset_files <- asset_files_of env self export_dir options wav_file ;;
           ret (generated_assets ++ asset_files))
          (fun e =>
             logger ERROR (Failed_to_process (Path.name wav_file) e) ;;
             ret generated_assets))).
Proof.
  apply trace_try_Forall.
  - apply trace_bind_Forall; [apply asset_files_of_unannounced|].
    intros a. constructor.
  - intros e. repeat constructor.
Qed.

(** Every file of the list is announced, in the order of the list,
    whether the files before it failed or not. *)
Lemma process_each_order (wav_files : list Path.t) :
  forall i generated_assets,
    processing_order
      (trace
         (process_each env self export_dir options n i wav_files
            generated_assets))
    = map Path.name wav_files.
Proof.
  induction wav_files as [|wav_file rest IH]; intros i generated_assets.
  - reflexivity.
  - rewrite process_each_cons.
    rewrite (trace_bind _ _ tt) by reflexivity.
    rewrite (trace_bind _ _ _ (try_block_outcome env self export_dir options
                                 wav_file generated_assets)).
    rewrite !processing_order_app, IH.
    rewrite (unannounced_no_processing _
               (try_block_unannounced wav_file generated_assets)).
    reflexivity.
Qed.

(** A file whose [try] block raises leaves an error record. *)
Lemma process_each_logs_failure (wav_files : list Path.t) :
  forall i generated_assets wav_file e,
    In wav_file wav_files ->
    outcome (asset_files_of env self export_dir options wav_file) = Raise e ->
    In (Log ERROR (Failed_to_process (Path.name wav_file) e))
      (trace
         (process_each env self export_dir options n i wav_files
            generated_assets)).
Proof.
  induction wav_files as [|w rest IH]; intros i generated_assets wav_file e Hin He;
    [contradiction|].
  rewrite process_each_cons.
  rewrite (trace_bind _ _ tt) by reflexivity.
  rewrite (trace_bind _ _ _ (try_block_outcome env self export_dir options
                               w generated_assets)).
  apply in_or_app. right. apply in_or_app.
  destruct Hin as [->|Hin].
  - left. rewrite (trace_try_Raise _ _ e).
    + apply in_or_app. right. now left.
    + now apply outcome_bind_Raise.
  - right. now apply IH.
Qed.

(** The events of the loop body after the [Processing] record. *)
Lemma try_block_trace (wav_file : Path.t) (generated_assets : list Path.t) :
  trace
    (try_except
       (asset_files <- asset_files_of env self export_dir options wav_file ;;
        ret (generated_assets ++ asset_files))
       (fun e =>
          logger ERROR (Failed_to_process (Path.name wav_file) e) ;;
          ret generated_assets))
  = trace (asset_files_of env self export_dir options wav_file)
    ++ match outcome (asset_files_of env self export_dir options wav_file) with
       | Return _ => []
       | Raise e => [Log ERROR (Failed_to_process (Path.name wav_file) e)]
       end.
Proof.
  destruct (outcome (asset_files_of env self export_dir options wav_file))
    as [asset_files|e] eqn:E.
  - rewrite (trace_try_Return _ _ (generated_assets ++ asset_files)).
    + now rewrite (trace_bind _ _ _ E).
    + now rewrite (outcome_bind _ _ _ E).
  - rewrite (trace_try_Raise _ _ e).
    + now rewrite (trace_bind_Raise _ _ _ E).
    + now apply outcome_bind_Raise.
Qed.

(** The events of the loop are those of its files, one file after the
    other in the order of the list. *)
Lemma process_each_trace (wav_files : list Path.t) :
  forall i generated_assets,
    trace
      (process_each env self export_dir options n i wav_files generated_assets)
    = flat_map (file_events env self export_dir options n)
        (combine (seq i (List.length wav_files)) wav_files).
Proof.
  induction wav_files as [|wav_file rest IH]; intros i generated_assets.
  - reflexivity.
  - rewrite process_each_cons.
    rewrite (trace_bind _ _ tt) by reflexivity.
    rewrite (trace_bind _ _ _ (try_block_outcome env self export_dir options
                                 wav_file generated_assets)).
    rewrite try_block_trace, IH. reflexivity.
Qed.

Lemma file_events_written (i : nat) (wav_file : Path.t) :
  written (file_events env self export_dir options n (i, wav_file))
  = assets_written env self export_dir options wav_file.
Proof.
  unfold file_events.
  change (written (trace (asset_files_of env self export_dir options wav_file)
                   ++ match
                        outcome
                          (asset_files_of env self export_dir options wav_file)
                      with
                      | Return _ => []
                      | Raise e =>
                          [Log ERROR (Failed_to_process (Path.name wav_file) e)]
                      end)
          = assets_written env self export_dir options wav_file).
  rewrite written_app, asset_files_of_written.
  destruct (outcome (asset_files_of env self export_dir options wav_file));
    apply app_nil_r.
Qed.

Lemma file_events_read (i : nat) (wav_file : Path.t) :
  files_read (file_events env self export_dir options n (i, wav_file))
  = if NVIDIA_SDK_AVAILABLE env then [wav_file] else [].
Proof.
  unfold file_events.
  change (files_read
            (trace (asset_files_of env self export_dir options wav_file)
             ++ match
                  outcome (asset_files_of env self export_dir options wav_file)
                with
                | Return _ => []
                | Raise e =>
                    [Log ERROR (Failed_to_process (Path.name wav_file) e)]
                end)
          = if NVIDIA_SDK_AVAILABLE env then [wav_file] else []).
  rewrite files_read_app, asset_files_of_read.
  destruct (outcome (asset_files_of env self export_dir options wav_file));
    apply app_nil_r.
Qed.

(** The loop writes the assets of its files, in the order of the list. *)
Lemma numbered_written (wav_files : list Path.t) :
  forall i,
    written
      (flat_map (file_events env self export_dir options n)
         (combine (seq i (List.length wav_files)) wav_files))
    = flat_map (assets_written env self export_dir options) wav_files.
Proof.
  induction wav_files as [|wav_file rest IH]; intros i; [reflexivity|].
  cbn [List.length seq combine flat_map].
  now rewrite written_app, file_events_written, IH.
Qed.

(** With the SDK the loop reads its files, each once, in the order of
    the list; without it no file is read. *)
Lemma numbered_read (wav_files : list Path.t) :
  forall i,
    files_read
      (flat_map (file_events env self export_dir options n)
         (combine (seq i (List.length wav_files)) wav_files))
    = if NVIDIA_SDK_AVAILABLE env then wav_files else [].
Proof.
  induction wav_files as [|wav_file rest IH]; intros i.
  - now destruct (NVIDIA_SDK_AVAILABLE env).
  - cbn [List.length seq combine flat_map].
    rewrite files_read_app, file_events_read, IH.
    now destruct (NVIDIA_SDK_AVAILABLE env).
Qed.

End BatchTrace.

(** ** [process_workspace] *)

Section Workspace.

Variable env : Env.
Variable self : Processor.
Variable workspace_path : Path.t.
Variable options : option Options.

Let audio_dir := Path.div workspace_path "audio".
Let export_dir := Path.div workspace_path "unreal_assets".
Let opts := match options with Some o => o | None => [] end.
Let wav_files := Path.sort (glob_wav env audio_dir).

Hypothesis audio_dir_exists : exists_ env audio_dir = true.
Hypothesis mkdir_ok : mkdir env export_dir = None.

(** With an audio directory that holds WAV files, the method is the
    loop between two log records. *)
Lemma process_workspace_runs :
  glob_wav env audio_dir <> [] ->
  process_workspace env self workspace_path options
  = (logger INFO (Found_WAV_files (List.length wav_files)) ;;
     emit (Mkdir export_dir) ;;
     ret tt ;;
     generated_assets <-
       process_each env self export_dir opts (List.length wav_files) 1
         wav_files [] ;;
     logger INFO (Generated_animation_assets (List.length generated_assets)) ;;
     ret generated_assets).
Proof.
  intros Hne. unfold process_workspace. cbv zeta.
  fold audio_dir. fold export_dir. fold opts.
  rewrite audio_dir_exists, mkdir_ok. simpl negb. cbv iota.
  unfold wav_files.
  destruct (glob_wav env audio_dir) as [|p l]; [contradiction|reflexivity].
Qed.

Lemma process_workspace_outcome :
  glob_wav env audio_dir <> [] ->
  outcome (process_workspace env self workspace_path options)
  = Return (flat_map (assets_added env self export_dir opts) wav_files).
Proof.
  intros Hne. rewrite (process_workspace_runs Hne).
  do 3 run_unit.
  rewrite (outcome_bind _ _ _
             (process_each_outcome env self export_dir opts _ wav_files 1 [])).
  reflexivity.
Qed.

Lemma process_workspace_trace :
  glob_wav env audio_dir <> [] ->
  trace (process_workspace env self workspace_path options)
  = [Log INFO (Found_WAV_files (List.length wav_files)); Mkdir export_dir]
    ++ trace
         (process_each env self export_dir opts (List.length wav_files) 1
            wav_files [])
    ++ [Log INFO
          (Generated_animation_assets
             (List.length
                (flat_map (assets_added env self export_dir opts) wav_files)))].
Proof.
  intros Hne. rewrite (process_workspace_runs Hne).
  rewrite (trace_bind _ _ tt) by reflexivity.
  rewrite (trace_bind _ _ tt) by reflexivity.
  rewrite (trace_bind _ _ tt) by reflexivity.
  rewrite (trace_bind _ _ _
             (process_each_outcome env self export_dir opts _ wav_files 1 [])).
  reflexivity.
Qed.

Lemma process_workspace_order :
  processing_order (trace (process_workspace env self workspace_path options))
  = map Path.name wav_files.
Proof.
  assert (D : glob_wav env audio_dir = [] \/ glob_wav env audio_dir <> []).
  { destruct (glob_wav env audio_dir); [now left | right; discriminate]. }
  destruct D as [E|Hne].
  - unfold process_workspace, wav_files. cbv zeta. fold audio_dir.
    rewrite audio_dir_exists, E. reflexivity.
  - rewrite (process_workspace_trace Hne), !processing_order_app.
    rewrite process_each_order. simpl. now rewrite app_nil_r.
Qed.

(** The events of a batch: the two records of its start, the events of
    its files in sorted order, and the record of its end. *)
Lemma process_workspace_events :
  glob_wav env audio_dir <> [] ->
  trace (process_workspace env self workspace_path options)
  = Log INFO (Found_WAV_files (List.length wav_files)) :: Mkdir export_dir
    :: flat_map (file_events env self export_dir opts (List.length wav_files))
         (combine (seq 1 (List.length wav_files)) wav_files)
    ++ [Log INFO
          (Generated_animation_assets
             (List.length
                (flat_map (assets_written env self export_dir opts) wav_files)))].
Proof.
  intros Hne. rewrite (process_workspace_trace Hne), process_each_trace.
  rewrite (flat_map_ext _ _ (assets_added_written env self export_dir opts)).
  reflexivity.
Qed.

Lemma process_workspace_written :
  written (trace (process_workspace env self workspace_path options))
  = flat_map (assets_written env self export_dir opts) wav_files.
Proof.
  assert (D : glob_wav env audio_dir = [] \/ glob_wav env audio_dir <> []).
  { destruct (glob_wav env audio_dir); [now left | right; discriminate]. }
  destruct D as [E|Hne].
  { unfold process_workspace, wav_files. cbv zeta. fold audio_dir.
    rewrite audio_dir_exists, E. reflexivity. }
  rewrite (process_workspace_events Hne).
  change (written
            (flat_map
               (file_events env self export_dir opts (List.length wav_files))
               (combine (seq 1 (List.length wav_files)) wav_files)
             ++ [Log INFO
                   (Generated_animation_assets
                      (List.length
                         (flat_map (assets_written env self export_dir opts)
                            wav_files)))])
          = flat_map (assets_written env self export_dir opts) wav_files).
  rewrite written_app, numbered_written. apply app_nil_r.
Qed.

Lemma process_workspace_read :
  files_read (trace (process_workspace env self workspace_path options))
  = if NVIDIA_SDK_AVAILABLE env then wav_files else [].
Proof.
  assert (D : glob_wav env audio_dir = [] \/ glob_wav env audio_dir <> []).
  { destruct (glob_wav env audio_dir); [now left | right; discriminate]. }
  destruct D as [E|Hne].
  { unfold process_workspace, wav_files. cbv zeta. fold audio_dir.
    rewrite audio_dir_exists, E. simpl.
    now destruct (NVIDIA_SDK_AVAILABLE env). }
  rewrite (process_workspace_events Hne).
  change (files_read
            (flat_map
               (file_events env self export_dir opts (List.length wav_files))
               (combine (seq 1 (List.length wav_files)) wav_files)
             ++ [Log INFO
                   (Generated_animation_assets
                      (List.length
                         (flat_map (assets_written env self export_dir opts)
                            wav_files)))])
          = if NVIDIA_SDK_AVAILABLE env then wav_files else []).
  rewrite files_read_app, numbered_read. apply app_nil_r.
Qed.

End Workspace.

(** C8: in a batch, a file whose processing raises is logged as failed
    and adds no asset, and the loop goes on: every file of the batch is
    processed, the assets generated for a file whose processing returned
    are among the assets of the batch, and the batch returns the assets
    of all such files, in the order of the files.  The assets are really
    generated: for a file whose processing returned, the exports write
    the asset paths of the file that are writable and return them, so
    the batch returns exactly the files that it wrote, and with writable
    paths the three assets of every succeeding file are among them. *)
Theorem batch_isolates_failures (env : Env) (self : Processor)
  (workspace_path : Path.t) (options : option Options) :
  let audio_dir := Path.div workspace_path "audio" in
  let export_dir := Path.div workspace_path "unreal_assets" in
  let opts := match options with Some o => o | None => [] end in
  let wav_files := Path.sort (glob_wav env audio_dir) in
  let run := process_workspace env self workspace_path options in
  exists_ env audio_dir = true ->
  glob_wav env audio_dir <> [] ->
  mkdir env export_dir = None ->
  outcome run
  = Return (flat_map (assets_added env self export_dir opts) wav_files)
  /\ processing_order (trace run) = map Path.name wav_files
  /\ (forall wav_file e,
        In wav_file wav_files ->
        outcome (animation_data_of env self wav_file opts) = Raise e ->
        In (Log ERROR (Failed_to_process (Path.name wav_file) e)) (trace run)
        /\ assets_added env self export_dir opts wav_file = [])
  /\ (forall wav_file animation_data,
        In wav_file wav_files ->
        outcome (animation_data_of env self wav_file opts)
        = Return animation_data ->
        exists asset_files generated_assets,
          outcome
            (_generate_animation_assets env animation_data
               (Path.stem wav_file) export_dir opts) = Return asset_files
          /\ outcome run = Return generated_assets
          /\ incl asset_files generated_assets)
  /\ outcome run
     = Return (flat_map (assets_written env self export_dir opts) wav_files)
  /\ written (trace run)
     = flat_map (assets_written env self export_dir opts) wav_files
  /\ (forall wav_file animation_data,
        In wav_file wav_files ->
        outcome (animation_data_of env self wav_file opts)
        = Return animation_data ->
        outcome
          (_generate_animation_assets env animation_data (Path.stem wav_file)
             export_dir opts)
        = Return
            (filter (writable env) (asset_paths export_dir (Path.stem wav_file)))
        /\ written
             (trace
                (_generate_animation_assets env animation_data
                   (Path.stem wav_file) export_dir opts))
           = filter (writable env) (asset_paths export_dir (Path.stem wav_file))
        /\ incl
             (filter (writable env) (asset_paths export_dir (Path.stem wav_file)))
             (written (trace run))
        /\ (forallb (writable env) (asset_paths export_dir (Path.stem wav_file))
            = true ->
            incl (asset_paths export_dir (Path.stem wav_file))
              (written (trace run))
            /\ exists generated_assets,
                 outcome run = Return generated_assets
                 /\ incl (asset_paths export_dir (Path.stem wav_file))
                      generated_assets)).
Proof.
  cbv zeta. intros He Hne Hm.
  pose proof (process_workspace_outcome env self workspace_path options He Hm Hne)
    as Ho.
  pose proof (process_workspace_written env self workspace_path options He Hm)
    as Hw.
  assert (Ho' :
    outcome (process_workspace env self workspace_path options)
    = Return
        (flat_map
           (assets_written env self (Path.div workspace_path "unreal_assets")
              match options with Some o => o | None => [] end)
           (Path.sort (glob_wav env (Path.div workspace_path "audio"))))).
  { rewrite Ho. f_equal. apply flat_map_ext. apply assets_added_written. }
  split; [exact Ho|]. split; [|split; [|split; [|split; [|split]]]].
  - exact (process_workspace_order env self workspace_path options He Hm).
  - intros wav_file e Hin Hr.
    pose proof (asset_files_of_raises env self
                  (Path.div workspace_path "unreal_assets") _ _ e Hr) as Hr'.
    split.
    + rewrite (process_workspace_trace env self workspace_path options He Hm Hne).
      apply in_or_app. right. apply in_or_app. left.
      now apply process_each_logs_failure.
    + unfold assets_added. now rewrite Hr'.
  - intros wav_file animation_data Hin Hr.
    destruct (generate_returns env animation_data (Path.stem wav_file)
                (Path.div workspace_path "unreal_assets")
                match options with Some o => o | None => [] end)
      as [asset_files Hg].
    exists asset_files. eexists. split; [exact Hg|]. split; [exact Ho|].
    intros p Hp. apply in_flat_map. exists wav_file. split; [exact Hin|].
    unfold assets_added.
    now rewrite (asset_files_of_returns env self _ _ _ _ _ Hr Hg).
  - exact Ho'.
  - exact Hw.
  - intros wav_file animation_data Hin Hr.
    destruct (generate_run env animation_data (Path.stem wav_file)
                (Path.div workspace_path "unreal_assets")
                match options with Some o => o | None => [] end)
      as (Hg & Hgw & _).
    assert (Hi :
      incl
        (filter (writable env)
           (asset_paths (Path.div workspace_path "unreal_assets")
              (Path.stem wav_file)))
        (flat_map
           (assets_written env self (Path.div workspace_path "unreal_assets")
              match options with Some o => o | None => [] end)
           (Path.sort (glob_wav env (Path.div workspace_path "audio"))))).
    { intros p Hp. apply in_flat_map. exists wav_file. split; [exact Hin|].
      unfold assets_written. now rewrite Hr. }
    split; [exact Hg|]. split; [exact Hgw|]. split; [now rewrite Hw|].
    intros Hall.
    assert (Hf :
      filter (writable env)
        (asset_paths (Path.div workspace_path "unreal_assets")
           (Path.stem wav_file))
      = asset_paths (Path.div workspace_path "unreal_assets")
          (Path.stem wav_file)).
    { apply forallb_filter_id. exact Hall. }
    rewrite Hf in Hi. split; [now rewrite Hw|].
    eexists. split; [exact Ho'|exact Hi].
Qed.

Lemma demo_glob_not_nil :
  glob_wav (Demo.env Demo.listing) (Path.div Demo.workspace "audio") <> [].
Proof. discriminate. Qed.

Lemma batch_isolates_failures_witness :
  let env := Demo.env Demo.listing in
  let export_dir := Path.div Demo.workspace "unreal_assets" in
  let wav_files :=
    [Path.div Demo.audio_dir "01_a.wav"; Path.div Demo.audio_dir "02_b.wav";
     Path.div Demo.audio_dir "03_c.wav"] in
  let run := process_workspace env Demo.self Demo.workspace None in
  outcome run
  = Return (flat_map (assets_added env Demo.self export_dir []) wav_files)
  /\ processing_order (trace run) = ["01_a.wav"; "02_b.wav"; "03_c.wav"]
  /\ (forall wav_file e,
        In wav_file wav_files ->
        outcome (animation_data_of env Demo.self wav_file []) = Raise e ->
        In (Log ERROR (Failed_to_process (Path.name wav_file) e)) (trace run)
        /\ assets_added env Demo.self export_dir [] wav_file = [])
  /\ (forall wav_file animation_data,
        In wav_file wav_files ->
        outcome (animation_data_of env Demo.self wav_file [])
        = Return animation_data ->
        exists asset_files generated_assets,
          outcome
            (_generate_animation_assets env animation_data
               (Path.stem wav_file) export_dir []) = Return asset_files
          /\ outcome run = Return generated_assets
          /\ incl asset_files generated_assets)
  /\ outcome run
     = Return (asset_paths export_dir "01_a" ++ asset_paths export_dir "03_c")
  /\ written (trace run)
     = asset_paths export_dir "01_a" ++ asset_paths export_dir "03_c"
  /\ (forall wav_file animation_data,
        In wav_file wav_files ->
        outcome (animation_data_of env Demo.self wav_file [])
        = Return animation_data ->
        outcome
          (_generate_animation_assets env animation_data (Path.stem wav_file)
             export_dir [])
        = Return
            (filter (writable env) (asset_paths export_dir (Path.stem wav_file)))
        /\ written
             (trace
                (_generate_animation_assets env animation_data
                   (Path.stem wav_file) export_dir []))
           = filter (writable env) (asset_paths export_dir (Path.stem wav_file))
        /\ incl
             (filter (writable env) (asset_paths export_dir (Path.stem wav_file)))
             (written (trace run))
        /\ (forallb (writable env) (asset_paths export_dir (Path.stem wav_file))
            = true ->
            incl (asset_paths export_dir (Path.stem wav_file))
              (written (trace run))
            /\ exists generated_assets,
                 outcome run = Return generated_assets
                 /\ incl (asset_paths export_dir (Path.stem wav_file))
                      generated_assets)).
Proof.
  exact (batch_isolates_failures (Demo.env Demo.listing) Demo.self
           Demo.workspace None eq_refl demo_glob_not_nil eq_refl).
Defined.

(** The batch of three files of which the second breaks in mid-stream:
    the assets of the first and of the third file are returned, and the
    failure of the second is logged. *)
Example batch_of_three :
  let run :=
    process_workspace (Demo.env Demo.listing) Demo.self Demo.workspace None in
  let unreal_assets := Path.div Demo.workspace "unreal_assets" in
  outcome run
  = Return [
      Path.div unreal_assets "01_a_animation.usd";
      Path.div unreal_assets "01_a_animation.json";
      Path.div unreal_assets "01_a_metadata.json";
      Path.div unreal_assets "03_c_animation.usd";
      Path.div unreal_assets "03_c_animation.json";
      Path.div unreal_assets "03_c_metadata.json"
    ]
  /\ In (Log ERROR (Failed_to_process "02_b.wav" (AioRpcError "UNAVAILABLE")))
       (trace run)
  /\ In (Log INFO (Generated_animation_assets 6)) (trace run).
Proof.
  cbv zeta. split; [vm_compute; reflexivity|].
  split; vm_compute; tauto.
Qed.

(** ** The order of a batch *)

Lemma filter_perm {A : Type} (f : A -> bool) (l l' : list A) :
  Permutation l l' -> Permutation (filter f l) (filter f l').
Proof.
  induction 1 as [|x l l' _ IH|x y l|l l' l'' _ IH1 _ IH2]; simpl.
  - constructor.
  - destruct (f x); [now constructor | exact IH].
  - destruct (f x), (f y); try reflexivity. apply perm_swap.
  - now rewrite IH1.
Qed.

(** C10: the files of a batch are processed in the lexicographic order
    of their names, whatever the order in which the file system lists the
    audio directory: the processing order is sorted, it holds the WAV
    names of the listing, and two listings of the same entries give the
    same processing order.  The order is that of the processing itself
    and not only of its announcements: the events of the batch are those
    of its files, one whole file after the other in sorted order, so the
    audio files are read (with the SDK) and the assets are written in
    that order, in both runs. *)
Theorem processing_order_sorted_and_deterministic (env env' : Env)
  (self self' : Processor) (workspace_path : Path.t)
  (options options' : option Options) :
  let audio_dir := Path.div workspace_path "audio" in
  let export_dir := Path.div workspace_path "unreal_assets" in
  let opts := match options with Some o => o | None => [] end in
  let opts' := match options' with Some o => o | None => [] end in
  let wav_files := Path.sort (glob_wav env audio_dir) in
  let run := process_workspace env self workspace_path options in
  let run' := process_workspace env' self' workspace_path options' in
  let order := processing_order (trace run) in
  let order' := processing_order (trace run') in
  exists_ env audio_dir = true -> exists_ env' audio_dir = true ->
  mkdir env export_dir = None -> mkdir env' export_dir = None ->
  Permutation (iterdir env audio_dir) (iterdir env' audio_dir) ->
  StronglySorted (fun a b => String.leb a b = true) order
  /\ Permutation order
       (filter (fun n => Py.endswith n ".wav") (iterdir env audio_dir))
  /\ order = order'
  /\ order = map Path.name wav_files
  /\ Path.sort (glob_wav env' audio_dir) = wav_files
  /\ (glob_wav env audio_dir <> [] ->
      trace run
      = Log INFO (Found_WAV_files (List.length wav_files)) :: Mkdir export_dir
        :: flat_map
             (file_events env self export_dir opts (List.length wav_files))
             (combine (seq 1 (List.length wav_files)) wav_files)
        ++ [Log INFO
              (Generated_animation_assets
                 (List.length
                    (flat_map (assets_written env self export_dir opts)
                       wav_files)))])
  /\ files_read (trace run)
     = (if NVIDIA_SDK_AVAILABLE env then wav_files else [])
  /\ files_read (trace run')
     = (if NVIDIA_SDK_AVAILABLE env' then wav_files else [])
  /\ written (trace run)
     = flat_map (assets_written env self export_dir opts) wav_files
  /\ written (trace run')
     = flat_map (assets_written env' self' export_dir opts') wav_files.
Proof.
  cbv zeta. intros He He' Hm Hm' Hp.
  rewrite (process_workspace_order env self workspace_path options He Hm).
  rewrite (process_workspace_order env' self' workspace_path options' He' Hm').
  assert (Hs :
    Path.sort (glob_wav env' (Path.div workspace_path "audio"))
    = Path.sort (glob_wav env (Path.div workspace_path "audio"))).
  { apply sort_of_perm. unfold glob_wav.
    apply Permutation_map. apply filter_perm. now apply Permutation_sym. }
  split; [|split; [|split; [|split; [|split; [|split; [|split; [|split;
    [|split]]]]]]]].
  - apply (sorted_names (Path.div workspace_path "audio")); [|apply sort_sorted].
    apply (Permutation_Forall (Permutation_sym (sort_perm _))).
    apply glob_wav_in_dir.
  - rewrite <- names_of_glob_wav. apply Permutation_map, sort_perm.
  - now rewrite Hs.
  - reflexivity.
  - exact Hs.
  - intros Hne.
    exact (process_workspace_events env self workspace_path options He Hm Hne).
  - exact (process_workspace_read env self workspace_path options He Hm).
  - rewrite <- Hs.
    exact (process_workspace_read env' self' workspace_path options' He' Hm').
  - exact (process_workspace_written env self workspace_path options He Hm).
  - rewrite <- Hs.
    exact (process_workspace_written env' self' workspace_path options' He' Hm').
Qed.

Lemma demo_listings_permuted : Permutation Demo.listing Demo.listing'.
Proof.
  unfold Demo.listing, Demo.listing'.
  apply (Permutation_cons_app ["01_a.wav"] ["03_c.wav"; "notes.txt"]). simpl.
  apply (Permutation_cons_app ["01_a.wav"; "03_c.wav"] []). simpl.
  apply perm_swap.
Qed.

Lemma processing_order_sorted_and_deterministic_witness :
  let export_dir := Path.div Demo.workspace "unreal_assets" in
  let wav_files :=
    [Path.div Demo.audio_dir "01_a.wav"; Path.div Demo.audio_dir "02_b.wav";
     Path.div Demo.audio_dir "03_c.wav"] in
  let run := process_workspace (Demo.env Demo.listing) Demo.self Demo.workspace None in
  let run' :=
    process_workspace (Demo.env Demo.listing') Demo.self Demo.workspace None in
  let order := processing_order (trace run) in
  let order' := processing_order (trace run') in
  StronglySorted (fun a b => String.leb a b = true) order
  /\ Permutation order ["02_b.wav"; "03_c.wav"; "01_a.wav"]
  /\ order = order'
  /\ order = ["01_a.wav"; "02_b.wav"; "03_c.wav"]
  /\ Path.sort
       (glob_wav (Demo.env Demo.listing') (Path.div Demo.workspace "audio"))
     = wav_files
  /\ trace run
     = Log INFO (Found_WAV_files 3) :: Mkdir export_dir
       :: flat_map (file_events (Demo.env Demo.listing) Demo.self export_dir [] 3)
            (combine [1; 2; 3] wav_files)
       ++ [Log INFO (Generated_animation_assets 6)]
  /\ files_read (trace run) = wav_files
  /\ files_read (trace run') = wav_files
  /\ written (trace run)
     = asset_paths export_dir "01_a" ++ asset_paths export_dir "03_c"
  /\ written (trace run')
     = asset_paths export_dir "01_a" ++ asset_paths export_dir "03_c".
Proof.
  destruct (processing_order_sorted_and_deterministic
              (Demo.env Demo.listing) (Demo.env Demo.listing') Demo.self Demo.self
              Demo.workspace None None eq_refl eq_refl eq_refl eq_refl
              demo_listings_permuted)
    as (H1 & H2 & H3 & H4 & H5 & H6 & H7 & H8 & H9 & H10).
  cbv zeta.
  split; [exact H1|]. split; [exact H2|]. split; [exact H3|].
  split; [exact H4|]. split; [exact H5|].
  split; [exact (H6 demo_glob_not_nil)|].
  split; [exact H7|]. split; [exact H8|]. split; [exact H9|exact H10].
Defined.

(** * Further properties of the script *)

(** ** Inputs that [process_workspace] refuses *)

Lemma filter_none {A : Type} (f : A -> bool) (l : list A) :
  Forall (fun x => f x = false) l -> filter f l = [].
Proof.
  induction 1 as [|x l H _ IH]; simpl; [reflexivity|]. now rewrite H.
Qed.

(** X1: a workspace whose audio directory is missing, or holds no entry
    that ends in [.wav], is refused with a [ValueError] before anything
    is done: no directory is made, no file is read, nothing is logged. *)
Theorem process_workspace_refuses_without_wav_files (env : Env)
  (self : Processor) (workspace_path : Path.t) (options : option Options) :
  let audio_dir := Path.div workspace_path "audio" in
  exists_ env audio_dir = false
  \/ Forall (fun n => Py.endswith n ".wav" = false) (iterdir env audio_dir) ->
  exists msg,
    process_workspace env self workspace_path options
    = ([], Raise (ValueError msg)).
Proof.
  cbv zeta. intros [H|H]; unfold process_workspace; cbv zeta.
  - rewrite H. eexists. reflexivity.
  - destruct (exists_ env (Path.div workspace_path "audio"));
      [|eexists; reflexivity].
    unfold glob_wav. rewrite (filter_none _ _ H). eexists. reflexivity.
Qed.

Lemma process_workspace_refuses_without_wav_files_witness :
  exists msg,
    process_workspace Demo.env_nothing Demo.self Demo.workspace None
    = ([], Raise (ValueError msg)).
Proof.
  exact (process_workspace_refuses_without_wav_files Demo.env_nothing Demo.self
           Demo.workspace None (or_introl eq_refl)).
Defined.

(** X2: when the export directory cannot be made, the batch raises the
    error of [mkdir] after its first log record: no file of the batch is
    read or sent to the service. *)
Theorem process_workspace_stops_when_mkdir_fails (env : Env)
  (self : Processor) (workspace_path : Path.t) (options : option Options)
  (e : exn) :
  let audio_dir := Path.div workspace_path "audio" in
  let export_dir := Path.div workspace_path "unreal_assets" in
  exists_ env audio_dir = true ->
  glob_wav env audio_dir <> [] ->
  mkdir env export_dir = Some e ->
  process_workspace env self workspace_path options
  = ([Log INFO (Found_WAV_files (List.length (glob_wav env audio_dir)));
      Mkdir export_dir],
     Raise e).
Proof.
  cbv zeta. intros He Hne Hm. unfold process_workspace. cbv zeta.
  rewrite He, Hm. simpl negb. cbv iota.
  rewrite <- (Permutation_length (sort_perm (glob_wav env _))).
  destruct (glob_wav env (Path.div workspace_path "audio")) as [|p l];
    [contradiction|reflexivity].
Qed.

Lemma process_workspace_stops_when_mkdir_fails_witness :
  process_workspace Demo.env_no_mkdir Demo.self Demo.workspace None
  = ([Log INFO (Found_WAV_files 3);
      Mkdir (Path.div Demo.workspace "unreal_assets")],
     Raise (OSError "Permission denied")).
Proof.
  exact (process_workspace_stops_when_mkdir_fails Demo.env_no_mkdir Demo.self
           Demo.workspace None (OSError "Permission denied")
           eq_refl demo_glob_not_nil eq_refl).
Defined.

(** ** The assets of one animation *)


(** ** The samples of the USD export *)

Lemma usd_samples_cons (f : Frame) (frames : list Frame) :
  usd_samples (f :: frames)
  = (if has_weights f
     then [((time_code f * 30)%Q, blendshape_weights f)]
     else [])
    ++ usd_samples frames.
Proof.
  unfold usd_samples, has_weights. simpl.
  now destruct (blendshape_weights f).
Qed.

(** X4: the USD export sets one sample per frame that has weights, in
    the order of the frames, at 30 times the frame's time code; a frame
    without weights gives no sample, and a result without frames gets no
    weights attribute at all. *)
Theorem usd_export_samples_frames_with_weights
  (animation_data : AnimationResult) (base_name : string) :
  usd_samples (frames animation_data)
  = map (fun f => ((time_code f * 30)%Q, blendshape_weights f))
      (filter has_weights (frames animation_data))
  /\ forall env export_dir options,
       let usd_path :=
         Path.div export_dir (base_name ++ "_animation.usd")%string in
       open_w env usd_path = None ->
       _export_as_usd env animation_data base_name export_dir options
       = ([WriteFile usd_path
             (UsdStage
                match frames animation_data with
                | [] => None
                | _ :: _ =>
                    Some
                      (map (fun f => ((time_code f * 30)%Q, blendshape_weights f))
                         (filter has_weights (frames animation_data)))
                end);
           Log INFO (Generated_USD_file (Path.name usd_path))],
          Return (Some usd_path)).
Proof.
  assert (E : forall fs,
             usd_samples fs
             = map (fun f => ((time_code f * 30)%Q, blendshape_weights f))
                 (filter has_weights fs)).
  { induction fs as [|f fs IH]; [reflexivity|].
    rewrite usd_samples_cons, IH. simpl. now destruct (has_weights f). }
  split; [apply E|].
  intros env export_dir options usd_path H. unfold _export_as_usd.
  fold usd_path. rewrite (write_trace _ _ _ H), E.
  now destruct (frames animation_data).
Qed.

(** ** The progress records of the response loop *)

Lemma progress_reports_app (tr tr' : list event) :
  progress_reports (tr ++ tr') = progress_reports tr ++ progress_reports tr'.
Proof. apply flat_map_app. Qed.

Lemma frame_data_reports_nothing (ad : pb.AnimationData) :
  progress_reports (trace (frame_data ad)) = [].
Proof.
  unfold frame_data.
  destruct ad as [[[[[|[t [v|]] ws]|]]|]]; reflexivity.
Qed.

(** X5: the response loop writes a progress record exactly when the
    number of collected frames reaches a multiple of 100: starting with
    [a] frames and receiving [k] responses that carry animation data, the
    reported counts are the multiples of 100 among [a + 1, ..., a + k],
    in increasing order. *)
Theorem progress_is_reported_every_100_frames (responses : list pb.Response) :
  forall animation_frames,
    progress_reports (trace (collect responses animation_frames))
    = filter (fun n => n mod 100 =? 0)
        (seq (S (List.length animation_frames))
           (List.length (carried responses))).
Proof.
  induction responses as [|response rest IH]; intros animation_frames.
  - reflexivity.
  - destruct (pb.animation_data response) as [ad|] eqn:Ha.
    + destruct (frame_data_returns ad) as [f Hf].
      assert (Hc : carried (response :: rest) = ad :: carried rest)
        by (unfold carried; simpl; now rewrite Ha).
      rewrite Hc. cbn [List.length seq filter].
      change (collect (response :: rest) animation_frames)
        with (match pb.animation_data response with
              | Some animation_data =>
                  bind (frame_data animation_data)
                    (fun frame =>
                       bind
                         (if List.length (animation_frames ++ [frame]) mod 100 =? 0
                          then logger INFO
                                 (Processed_frames
                                    (List.length (animation_frames ++ [frame]))
                                    (time_code frame)
                                    (List.length (blendshape_weights frame)))
                          else ret tt)
                         (fun _ => collect rest (animation_frames ++ [frame])))
              | None => collect rest animation_frames
              end).
      rewrite Ha, (trace_bind _ _ f Hf), progress_reports_app.
      rewrite frame_data_reports_nothing.
      rewrite (trace_bind _ _ tt) by now destruct (_ =? 0).
      rewrite progress_reports_app, IH.
      rewrite length_app, Nat.add_1_r. cbn [List.length].
      now destruct (S (List.length animation_frames) mod 100 =? 0).
    + rewrite (collect_not_carrying _ _ _ Ha), IH.
      unfold carried. simpl. now rewrite Ha.
Qed.

(** ** Names, stems and suffixes *)

Lemma string_length_app (s t : string) :
  String.length (s ++ t)%string = String.length s + String.length t.
Proof.
  induction s as [|a s IH]; simpl; [reflexivity|]. now rewrite IH.
Qed.

Lemma substring_all (s : string) : substring 0 (String.length s) s = s.
Proof.
  induction s as [|a s IH]; simpl; [reflexivity|]. now rewrite IH.
Qed.

Lemma substring_app_left (s t : string) :
  substring 0 (String.length s) (s ++ t)%string = s.
Proof.
  induction s as [|a s IH]; simpl.
  - now destruct t.
  - now rewrite IH.
Qed.

Lemma substring_app_right (s t : string) :
  substring (String.length s) (String.length t) (s ++ t)%string = t.
Proof.
  induction s as [|a s IH]; simpl; [apply substring_all | exact IH].
Qed.

Lemma substring_split (s : string) :
  forall k, k <= String.length s ->
    s = (substring 0 k s ++ substring k (String.length s - k) s)%string.
Proof.
  induction s as [|a s IH]; intros [|k] H; simpl in *; try reflexivity; try lia.
  - now rewrite substring_all.
  - f_equal. apply IH. lia.
Qed.

Lemma rfind_app (c : ascii) (s t : string) :
  Py.rfind c (s ++ t)%string
  = match Py.rfind c t with
    | Some i => Some (String.length s + i)
    | None => Py.rfind c s
    end.
Proof.
  induction s as [|a s IH]; simpl.
  - now destruct (Py.rfind c t).
  - rewrite IH. now destruct (Py.rfind c t).
Qed.

(** A name that ends in [.wav] is some text followed by [.wav]. *)
Lemma endswith_wav (n : string) :
  Py.endswith n ".wav" = true -> exists base, n = (base ++ ".wav")%string.
Proof.
  unfold Py.endswith. intros H. apply andb_prop in H. destruct H as [L E].
  apply Nat.leb_le in L. apply String.eqb_eq in E.
  exists (substring 0 (String.length n - String.length ".wav") n).
  pose proof (substring_split n (String.length n - String.length ".wav")
                ltac:(lia)) as S.
  replace (String.length n - (String.length n - String.length ".wav"))
    with (String.length ".wav") in S by lia.
  now rewrite E in S.
Qed.

Section WavName.

Variable dir : Path.t.
Variable base : string.
Hypothesis base_not_empty : base <> "".

Lemma rfind_dot_wav :
  Py.rfind "."%char (base ++ ".wav")%string = Some (String.length base).
Proof.
  rewrite rfind_app. simpl Py.rfind. cbv iota beta. now rewrite Nat.add_0_r.
Qed.

Lemma dot_is_inside :
  (0 <? String.length base)
  && (String.length base <? String.length (base ++ ".wav")%string - 1) = true.
Proof.
  rewrite string_length_app.
  assert (L : 0 < String.length base)
    by (destruct base; simpl; [easy|lia]).
  apply andb_true_intro. split; apply Nat.ltb_lt; simpl; lia.
Qed.

Lemma stem_div_wav : Path.stem (Path.div dir (base ++ ".wav")%string) = base.
Proof.
  unfold Path.stem. rewrite name_div. cbv zeta.
  rewrite rfind_dot_wav, dot_is_inside. apply substring_app_left.
Qed.

Lemma suffix_div_wav : Path.suffix (Path.div dir (base ++ ".wav")%string) = ".wav".
Proof.
  unfold Path.suffix. rewrite name_div. cbv zeta.
  rewrite rfind_dot_wav, dot_is_inside, string_length_app.
  replace (String.length base + String.length ".wav" - String.length base)
    with (String.length ".wav") by lia.
  apply substring_app_right.
Qed.

Lemma endswith_app_wav : Py.endswith (base ++ ".wav")%string ".wav" = true.
Proof.
  unfold Py.endswith. rewrite string_length_app.
  replace (String.length base + String.length ".wav" - String.length ".wav")
    with (String.length base) by lia.
  rewrite substring_app_right.
  apply andb_true_intro. split; [apply Nat.leb_le; lia | reflexivity].
Qed.

End WavName.

(** X6: for a file named [base.wav] with a non-empty [base], whatever
    dots [base] holds, the stem is [base] and the suffix is [.wav]: the
    assets of the file are named after [base], and the single-file mode
    accepts the file. *)
Theorem stem_and_suffix_of_wav_file (dir : Path.t) (base : string) :
  base <> "" ->
  let wav_file := Path.div dir (base ++ ".wav")%string in
  Path.name wav_file = (base ++ ".wav")%string
  /\ Path.stem wav_file = base
  /\ Path.suffix wav_file = ".wav"
  /\ Py.endswith (Path.name wav_file) ".wav" = true.
Proof.
  intros Hb. cbv zeta. rewrite name_div.
  split; [reflexivity|]. split; [now apply stem_div_wav|].
  split; [now apply suffix_div_wav | apply endswith_app_wav].
Qed.

Lemma stem_and_suffix_of_wav_file_witness :
  let wav_file := Path.div Demo.audio_dir "take.2.final.wav" in
  Path.name wav_file = "take.2.final.wav"
  /\ Path.stem wav_file = "take.2.final"
  /\ Path.suffix wav_file = ".wav"
  /\ Py.endswith (Path.name wav_file) ".wav" = true.
Proof.
  refine (stem_and_suffix_of_wav_file Demo.audio_dir "take.2.final" _).
  discriminate.
Defined.

(** ** Asset paths of different files *)

Lemma chars_app (s t : string) :
  list_ascii_of_string (s ++ t)%string
  = list_ascii_of_string s ++ list_ascii_of_string t.
Proof.
  induction s as [|a s IH]; simpl; [reflexivity|]. now rewrite IH.
Qed.

Lemma chars_inj (s t : string) :
  list_ascii_of_string s = list_ascii_of_string t -> s = t.
Proof.
  intros H. rewrite <- (string_of_list_ascii_of_string s),
    <- (string_of_list_ascii_of_string t). now rewrite H.
Qed.

Lemma rev_chars_app (s t : string) :
  rev (list_ascii_of_string (s ++ t)%string)
  = rev (list_ascii_of_string t) ++ rev (list_ascii_of_string s).
Proof. now rewrite chars_app, rev_app_distr. Qed.

Lemma append_inv_tail (s1 s2 t : string) :
  (s1 ++ t)%string = (s2 ++ t)%string -> s1 = s2.
Proof.
  intros H. apply (f_equal list_ascii_of_string) in H.
  rewrite !chars_app in H. apply app_inv_tail in H. now apply chars_inj.
Qed.

Lemma div_inj (dir : Path.t) (a b : string) :
  Path.div dir a = Path.div dir b -> a = b.
Proof.
  unfold Path.div. intros H. apply app_inv_head in H. now inversion H.
Qed.

(** Two asset names of different kinds differ in their last
    characters. *)
Ltac kinds_differ H :=
  apply (f_equal (fun s => rev (list_ascii_of_string s))) in H;
  cbv beta in H; rewrite !rev_chars_app in H; simpl in H; discriminate H.

Lemma asset_paths_disjoint (export_dir : Path.t) (b1 b2 : string) :
  b1 <> b2 ->
  forall p, In p (asset_paths export_dir b1) ->
            ~ In p (asset_paths export_dir b2).
Proof.
  intros Hne p H1 H2. unfold asset_paths in *. simpl in H1, H2.
  destruct H1 as [<-|[<-|[<-|[]]]]; destruct H2 as [H|[H|[H|[]]]];
    apply div_inj in H;
    first [ apply append_inv_tail in H; congruence | kinds_differ H ].
Qed.

Lemma asset_paths_NoDup (export_dir : Path.t) (b : string) :
  NoDup (asset_paths export_dir b).
Proof.
  unfold asset_paths. repeat constructor; simpl;
    intros H; repeat destruct H as [H|H]; try contradiction;
    apply div_inj in H; kinds_differ H.
Qed.

(** X7: two different files of an audio directory, both named
    [something.wav] with a non-empty [something], never share an asset
    path, and the three assets of one file are three different paths: in
    a batch no export overwrites the file of another export. *)
Theorem assets_of_different_files_do_not_collide (export_dir dir : Path.t)
  (n1 n2 : string) :
  Py.endswith n1 ".wav" = true -> Py.endswith n2 ".wav" = true ->
  n1 <> ".wav" -> n2 <> ".wav" -> n1 <> n2 ->
  NoDup
    (asset_paths export_dir (Path.stem (Path.div dir n1))
     ++ asset_paths export_dir (Path.stem (Path.div dir n2))).
Proof.
  intros E1 E2 H1 H2 Hne.
  destruct (endswith_wav n1 E1) as [b1 ->].
  destruct (endswith_wav n2 E2) as [b2 ->].
  assert (B1 : b1 <> "") by (intros ->; now apply H1).
  assert (B2 : b2 <> "") by (intros ->; now apply H2).
  rewrite (stem_div_wav dir b1 B1), (stem_div_wav dir b2 B2).
  assert (B : b1 <> b2) by (intros ->; now apply Hne).
  apply NoDup_app; try apply asset_paths_NoDup.
  intros p. now apply asset_paths_disjoint.
Qed.

Lemma assets_of_different_files_do_not_collide_witness :
  NoDup
    (asset_paths (Path.div Demo.workspace "unreal_assets")
       (Path.stem (Path.div Demo.audio_dir "01_a.wav"))
     ++ asset_paths (Path.div Demo.workspace "unreal_assets")
          (Path.stem (Path.div Demo.audio_dir "01_a.b.wav"))).
Proof.
  refine (assets_of_different_files_do_not_collide
            (Path.div Demo.workspace "unreal_assets") Demo.audio_dir
            "01_a.wav" "01_a.b.wav" eq_refl eq_refl _ _ _); discriminate.
Defined.

(** ** What a produced result looks like *)

Lemma process_read_fails (env : Env) (self : Processor) (wav_file : Path.t)
  (options : Options) (e : exn) :
  read_bytes env wav_file = Raise e ->
  outcome (_process_with_nvidia_sdk env self wav_file options) = Raise e.
Proof.
  intros H. unfold _process_with_nvidia_sdk. do 2 run_unit.
  now rewrite (outcome_bind_Raise ([], read_bytes env wav_file) _ e H).
Qed.

(** A result of the SDK path comes from a file that was read and a
    stream that ended normally. *)
Lemma process_outcome_inv (env : Env) (self : Processor) (wav_file : Path.t)
  (options : Options) (r : AnimationResult) :
  outcome (_process_with_nvidia_sdk env self wav_file options) = Return r ->
  exists audio_data responses animation_frames,
    read_bytes env wav_file = Return audio_data
    /\ ProcessAudioStream env (requests audio_data) (timeout self)
       = (responses, None)
    /\ outcome (collect responses []) = Return animation_frames
    /\ Forall2 (fun ad f => outcome (frame_data ad) = Return f)
         (carried responses) animation_frames
    /\ r = {|
         source_file := Path.str wav_file;
         frames := animation_frames;
         duration :=
           match map time_code animation_frames with
           | [] => 0%Q
           | t :: ts => Py.max_loop t ts
           end;
         frame_count := List.length animation_frames;
         warning := None
       |}.
Proof.
  intros H.
  destruct (read_bytes env wav_file) as [audio_data|e] eqn:Hr.
  2: { rewrite (process_read_fails _ _ _ _ e Hr) in H. discriminate. }
  destruct (ProcessAudioStream env (requests audio_data) (timeout self))
    as [responses [e|]] eqn:Hs.
  { rewrite (process_raises env self wav_file options audio_data responses
               Hr e Hs) in H. discriminate. }
  destruct (collect_returns responses []) as [fs [Hc HF]]. simpl in Hc.
  rewrite (process_returns env self wav_file options audio_data responses
             Hr fs Hs Hc) in H.
  exists audio_data, responses, fs. repeat split; try assumption.
  now inversion H.
Qed.

Lemma duration_of_frames (f : Frame) (fs : list Frame) :
  In (Py.max_loop (time_code f) (map time_code fs))
    (map time_code (f :: fs)).
Proof. apply max_loop_spec. Qed.

(** X8: whichever path produced it, from whatever stream, a returned
    result is consistent: it names its source file, its frame count is
    the number of its frames, its duration is 0 without frames and the
    time code of one of its frames otherwise.  Hence its metadata is
    built without raising (it never divides by zero): the frame rate is
    0 without frames and positive when the duration is positive. *)
Theorem produced_result_is_consistent (env : Env) (self : Processor)
  (wav_file : Path.t) (options : Options) (r : AnimationResult) :
  outcome (animation_data_of env self wav_file options) = Return r ->
  source_file r = Path.str wav_file
  /\ frame_count r = List.length (frames r)
  /\ (frames r = [] -> duration r = 0%Q)
  /\ (frames r <> [] -> In (duration r) (map time_code (frames r)))
  /\ forall base_name,
       exists m,
         metadata r base_name = ([], Return m)
         /\ (frames r = [] ->
             frame_rate m = 0%Q /\ blendshape_count m = 0)
         /\ ((0 < duration r)%Q -> (0 < frame_rate m)%Q).
Proof.
  unfold animation_data_of. intros H.
  assert (I : source_file r = Path.str wav_file
              /\ frame_count r = List.length (frames r)
              /\ (frames r = [] -> duration r = 0%Q)
              /\ (frames r <> [] -> In (duration r) (map time_code (frames r)))).
  { destruct (NVIDIA_SDK_AVAILABLE env).
    - destruct (process_outcome_inv _ _ _ _ _ H)
        as (audio & responses & fs & _ & _ & _ & _ & ->). simpl.
      repeat split; destruct fs as [|f fs]; try congruence; try reflexivity.
      intros _. apply duration_of_frames.
    - inversion H. simpl. repeat split; congruence. }
  destruct I as (I1 & I2 & I3 & I4).
  split; [exact I1|]. split; [exact I2|]. split; [exact I3|].
  split; [exact I4|]. intros base_name.
  destruct (metadata_returns r base_name) as (m & Em & _ & _ & _ & Hr & Hb).
  exists m. split; [exact Em|]. rewrite Hr, Hb. split; [intros E; split|].
  - rewrite (I3 E). reflexivity.
  - now rewrite E.
  - intros D. rewrite (gtb_of_lt _ _ D).
    assert (N : frames r <> []).
    { intros E. rewrite (I3 E) in D. now apply Qlt_irrefl in D. }
    assert (C : (0 < inject_Z (Z.of_nat (frame_count r)))%Q).
    { rewrite I2. destruct (frames r); [congruence|].
      unfold Qlt. simpl. lia. }
    apply Qlt_shift_div_l; [exact D|]. now rewrite Qmult_0_l.
Qed.

Lemma produced_result_is_consistent_witness :
  let r := {|
    source_file := "workspace/wavtest/audio/01_a.wav";
    frames := [
      {| time_code := 0%Q; blendshape_weights := [(1 # 2)%Q; (1 # 4)%Q] |};
      {| time_code := 0%Q; blendshape_weights := [] |};
      {| time_code := 2%Q; blendshape_weights := [(1 # 2)%Q; (1 # 4)%Q] |};
      {| time_code := 1%Q; blendshape_weights := [(1 # 2)%Q; (1 # 4)%Q] |}
    ];
    duration := 2%Q;
    frame_count := 4;
    warning := None
  |} in
  source_file r = Path.str (Path.div Demo.audio_dir "01_a.wav")
  /\ frame_count r = List.length (frames r)
  /\ (frames r = [] -> duration r = 0%Q)
  /\ (frames r <> [] -> In (duration r) (map time_code (frames r)))
  /\ forall base_name,
       exists m,
         metadata r base_name = ([], Return m)
         /\ (frames r = [] ->
             frame_rate m = 0%Q /\ blendshape_count m = 0)
         /\ ((0 < duration r)%Q -> (0 < frame_rate m)%Q).
Proof.
  exact (produced_result_is_consistent (Demo.env Demo.listing) Demo.self
           (Path.div Demo.audio_dir "01_a.wav") [] _ eq_refl).
Defined.

(** ** From the responses to the metadata file *)

Lemma generate_writes_metadata (env : Env) (animation_data : AnimationResult)
  (base_name : string) (export_dir : Path.t) (options : Options) :
  forall m,
  metadata animation_data base_name = ([], Return m) ->
  open_w env (Path.div export_dir (base_name ++ "_metadata.json")%string) = None ->
  In (WriteFile (Path.div export_dir (base_name ++ "_metadata.json")%string)
        (JsonMetadata m))
    (trace (_generate_animation_assets env animation_data base_name
              export_dir options)).
Proof.
  intros m Em H.
  unfold _generate_animation_assets, _export_as_usd, _export_as_json,
    _export_metadata, write.
  cbv zeta. rewrite H, Em.
  destruct (open_w env (Path.div export_dir (base_name ++ "_animation.usd")%string));
    destruct (open_w env (Path.div export_dir (base_name ++ "_animation.json")%string));
    simpl; tauto.
Qed.

(** X9: when a file is read, its stream ends normally and its metadata
    path can be written, processing the file writes a metadata record
    named after the file's stem whose frame count is the number of
    responses that carried animation data; when there was none, the
    record has duration 0, frame rate 0 and blendshape count 0.  This
    holds even when the two other exports of the file fail. *)
Theorem processed_file_writes_its_metadata (env : Env) (self : Processor)
  (export_dir : Path.t) (options : Options) (wav_file : Path.t)
  (audio_data : Py.bytes) (responses : list pb.Response) :
  let meta_path :=
    Path.div export_dir (Path.stem wav_file ++ "_metadata.json")%string in
  NVIDIA_SDK_AVAILABLE env = true ->
  read_bytes env wav_file = Return audio_data ->
  ProcessAudioStream env (requests audio_data) (timeout self)
  = (responses, None) ->
  open_w env meta_path = None ->
  exists m,
    In (WriteFile meta_path (JsonMetadata m))
      (trace (asset_files_of env self export_dir options wav_file))
    /\ animation_name m = Path.stem wav_file
    /\ md_frame_count m = List.length (carried responses)
    /\ (carried responses = [] ->
        duration_seconds m = 0%Q /\ frame_rate m = 0%Q
        /\ blendshape_count m = 0).
Proof.
  cbv zeta. intros Hsdk Hr Hs Hw.
  destruct (collect_returns responses []) as [fs [Hc HF]]. simpl in Hc.
  pose proof (process_returns env self wav_file options audio_data responses
                Hr fs Hs Hc) as Hp.
  match type of Hp with
  | _ = Return ?r =>
      destruct (metadata_returns r (Path.stem wav_file))
        as (m & Em & Hn & Hd & Hc' & Hr' & Hb)
  end.
  cbn [duration frame_count frames] in Hd, Hc', Hr', Hb.
  exists m. split.
  - unfold asset_files_of, animation_data_of. rewrite Hsdk.
    rewrite (trace_bind _ _ _ Hp). apply in_or_app. right.
    now apply generate_writes_metadata.
  - pose proof (Forall2_length HF) as L.
    split; [exact Hn|]. split; [now rewrite Hc'|].
    intros E. rewrite E in L. destruct fs; [|discriminate].
    rewrite Hd, Hr', Hb. now repeat split.
Qed.

Lemma processed_file_writes_its_metadata_witness :
  let meta_path :=
    Path.div (Path.div Demo.workspace "unreal_assets") "01_a_metadata.json" in
  exists m,
    In (WriteFile meta_path (JsonMetadata m))
      (trace (asset_files_of Demo.env_read_only Demo.self
                (Path.div Demo.workspace "unreal_assets") []
                (Path.div Demo.audio_dir "01_a.wav")))
    /\ animation_name m = "01_a"
    /\ md_frame_count m = 4
    /\ (carried (fst (Demo.service (requests [x01; x00; x01; x00]) 180)) = [] ->
        duration_seconds m = 0%Q /\ frame_rate m = 0%Q
        /\ blendshape_count m = 0).
Proof.
  exact (processed_file_writes_its_metadata Demo.env_read_only Demo.self
           (Path.div Demo.workspace "unreal_assets") []
           (Path.div Demo.audio_dir "01_a.wav") [x01; x00; x01; x00]
           (fst (Demo.service (requests [x01; x00; x01; x00]) 180))
           eq_refl eq_refl eq_refl eq_refl).
Defined.

(** ** [process_single_file] *)



Lemma parent_div (p : Path.t) (n : string) : Path.parent (Path.div p n) = p.
Proof. apply removelast_last. Qed.

(** ** Runs of the callers *)

Lemma prepend_nil {A} (r : Run A) : prepend [] r = r.
Proof. now destruct r. Qed.

Lemma prepend_prepend {A} (efs efs' : list effect) (r : Run A) :
  prepend efs (prepend efs' r) = prepend (efs ++ efs') r.
Proof. unfold prepend. simpl. now rewrite app_assoc. Qed.

Lemma pbind_Done {A B} (m : P A) (k : A -> P B) (c : Connection) (a : A) :
  ending (m c) = Done a ->
  pbind m k c = prepend (effects (m c)) (k a (connection (m c))).
Proof. intros H. unfold pbind. cbv zeta. now rewrite H. Qed.

Lemma pbind_Failed {A B} (m : P A) (k : A -> P B) (c : Connection) (e : exn) :
  ending (m c) = Failed e ->
  pbind m k c
  = {| effects := effects (m c);
       ending := Failed e;
       connection := connection (m c) |}.
Proof. intros H. unfold pbind. cbv zeta. now rewrite H. Qed.

Lemma pbind_SystemExit {A B} (m : P A) (k : A -> P B) (c : Connection)
  (code : Z) :
  ending (m c) = SystemExit code ->
  pbind m k c
  = {| effects := effects (m c);
       ending := SystemExit code;
       connection := connection (m c) |}.
Proof. intros H. unfold pbind. cbv zeta. now rewrite H. Qed.

Lemma pbind_perform {B} (ef : effect) (k : unit -> P B) (c : Connection) :
  pbind (perform ef) k c = prepend [ef] (k tt c).
Proof. reflexivity. Qed.

Lemma pbind_pret {A B} (a : A) (k : A -> P B) (c : Connection) :
  pbind (pret a) k c = k a c.
Proof. unfold pbind, pret. simpl. apply prepend_nil. Qed.

Lemma pbind_lift_Return {A B} (m : M A) (k : A -> P B) (c : Connection) (a : A) :
  outcome m = Return a ->
  pbind (lift m) k c = prepend (map Inner (trace m)) (k a c).
Proof.
  intros H. rewrite (pbind_Done _ _ _ a); [reflexivity|].
  unfold lift. simpl. now rewrite H.
Qed.

Lemma pbind_lift_Raise {A B} (m : M A) (k : A -> P B) (c : Connection) (e : exn) :
  outcome m = Raise e ->
  pbind (lift m) k c
  = {| effects := map Inner (trace m); ending := Failed e; connection := c |}.
Proof.
  intros H. rewrite (pbind_Failed _ _ _ e); [reflexivity|].
  unfold lift. simpl. now rewrite H.
Qed.

Lemma ptry_run {A} (m : P A) (h : exn -> P A) (c : Connection) (r : Run A) :
  m c = r ->
  ptry m h c
  = match ending r with
    | Failed e => prepend (effects r) (h e (connection r))
    | _ => r
    end.
Proof. intros <-. reflexivity. Qed.

Lemma pfinally_close {A} (m : P A) (c : Connection) (r : Run A) :
  m c = r ->
  pfinally m close c
  = {| effects :=
         effects r
         ++ match channel (connection r) with
            | Some target => [ChannelClose target]
            | None => []
            end;
       ending := ending r;
       connection := connection r |}.
Proof.
  intros <-. unfold pfinally, close. cbv zeta.
  destruct (channel (connection (m c))); reflexivity.
Qed.

(** The single-file mode on a valid file, by the outcome of the two
    steps of its [try] block. *)
Lemma process_single_file_run (env : Env) (self : Processor)
  (wav_file : Path.t) (options : option Options) (c : Connection) :
  let opts := match options with Some o => o | None => [] end in
  let export_dir :=
    Path.div (Path.parent (Path.parent wav_file)) "unreal_assets" in
  let data := animation_data_of env self wav_file opts in
  exists_ env wav_file = true -> Path.suffix wav_file = ".wav" ->
  mkdir env export_dir = None ->
  process_single_file env self wav_file options c
  = prepend
      (Inner (Mkdir export_dir)
       :: Notice INFO (Processing_single_file (Path.name wav_file))
       :: map Inner (trace data))
      match outcome data with
      | Return animation_data =>
          let assets :=
            _generate_animation_assets env animation_data (Path.stem wav_file)
              export_dir opts in
          match outcome assets with
          | Return asset_files =>
              {| effects :=
                   map Inner (trace assets)
                   ++ [Notice INFO
                         (Generated_assets_for (List.length asset_files)
                            (Path.name wav_file))];
                 ending := Done asset_files;
                 connection := c |}
          | Raise e =>
              {| effects :=
                   map Inner (trace assets)
                   ++ [Inner (Log ERROR (Failed_to_process (Path.name wav_file) e))];
                 ending := Failed e;
                 connection := c |}
          end
      | Raise e =>
          {| effects :=
               [Inner (Log ERROR (Failed_to_process (Path.name wav_file) e))];
             ending := Failed e;
             connection := c |}
      end.
Proof.
  cbv zeta. intros He Hs Hm. unfold process_single_file. cbv zeta.
  rewrite He, Hs, Hm, String.eqb_refl. cbn [negb orb].
  unfold notify. rewrite pbind_perform, pbind_pret, pbind_perform.
  rewrite prepend_prepend. cbn [app].
  set (opts := match options with Some o => o | None => [] end).
  set (export_dir := Path.div (Path.parent (Path.parent wav_file)) "unreal_assets").
  destruct (outcome (animation_data_of env self wav_file opts)) as [d|e] eqn:Ed.
  - destruct (outcome (_generate_animation_assets env d (Path.stem wav_file)
                         export_dir opts)) as [a|e] eqn:Eg.
    + erewrite ptry_run.
      2: { rewrite (pbind_lift_Return _ _ _ d Ed).
           rewrite (pbind_lift_Return _ _ _ a Eg).
           rewrite pbind_perform, prepend_prepend, prepend_prepend.
           reflexivity. }
      unfold prepend, pret. cbn [effects ending connection].
      f_equal; rewrite ?app_nil_r, <- ?app_assoc; reflexivity.
    + erewrite ptry_run.
      2: { rewrite (pbind_lift_Return _ _ _ d Ed).
           rewrite (pbind_lift_Raise _ _ _ e Eg). reflexivity. }
      unfold prepend. cbn [effects ending connection].
      rewrite pbind_perform. unfold prepend, praise.
      cbn [effects ending connection].
      f_equal; rewrite ?app_nil_r, <- ?app_assoc; reflexivity.
  - erewrite ptry_run.
    2: { rewrite (pbind_lift_Raise _ _ _ e Ed). reflexivity. }
    cbn [effects ending connection].
    rewrite pbind_perform. unfold prepend, praise.
    cbn [effects ending connection].
    f_equal; rewrite ?app_nil_r, <- ?app_assoc; reflexivity.
Qed.

Lemma inner_events_app (efs efs' : list effect) :
  inner_events (efs ++ efs') = inner_events efs ++ inner_events efs'.
Proof. apply flat_map_app. Qed.

Lemma inner_events_map (tr : list event) : inner_events (map Inner tr) = tr.
Proof.
  induction tr as [|ev tr IH]; [reflexivity|].
  unfold inner_events in *. simpl. now rewrite IH.
Qed.

Lemma channels_closed_app (efs efs' : list effect) :
  channels_closed (efs ++ efs') = channels_closed efs ++ channels_closed efs'.
Proof. apply flat_map_app. Qed.


(** X11: on a file of a workspace's audio directory, the single-file
    mode uses the export directory of the batch and does what the batch
    does for that file: the same reads, service calls and writes, and the
    same assets when the processing returns.  Unlike the batch it raises
    the exception of a processing that fails, after the same error
    record. *)
Theorem single_file_does_what_the_batch_does (env : Env) (self : Processor)
  (workspace_path : Path.t) (name : string) (options : option Options)
  (c : Connection) :
  let wav_file := Path.div (Path.div workspace_path "audio") name in
  let export_dir := Path.div workspace_path "unreal_assets" in
  let opts := match options with Some o => o | None => [] end in
  let batch := asset_files_of env self export_dir opts wav_file in
  let run := process_single_file env self wav_file options c in
  exists_ env wav_file = true -> Path.suffix wav_file = ".wav" ->
  mkdir env export_dir = None ->
  (forall asset_files,
      outcome batch = Return asset_files -> ending run = Done asset_files)
  /\ (forall e,
        outcome batch = Raise e ->
        ending run = Failed e
        /\ In (Inner (Log ERROR (Failed_to_process name e))) (effects run))
  /\ inner_events (effects run)
     = Mkdir export_dir :: trace batch
       ++ match outcome batch with
          | Return _ => []
          | Raise e => [Log ERROR (Failed_to_process name e)]
          end
  /\ connection run = c.
Proof.
  cbv zeta. intros He Hs Hm.
  pose proof (process_single_file_run env self
                (Path.div (Path.div workspace_path "audio") name) options c)
    as R.
  cbv zeta in R. rewrite !parent_div, name_div in R.
  rewrite (R He Hs Hm). clear R. unfold asset_files_of.
  set (opts := match options with Some o => o | None => [] end).
  set (wav_file := Path.div (Path.div workspace_path "audio") name).
  set (export_dir := Path.div workspace_path "unreal_assets").
  destruct (outcome (animation_data_of env self wav_file opts)) as [d|e] eqn:Ed.
  - destruct (generate_returns env d (Path.stem wav_file) export_dir opts)
      as [a Ha].
    rewrite (outcome_bind _ _ d Ed), (trace_bind _ _ d Ed), Ha.
    unfold prepend. cbn [effects ending connection].
    split; [intros ? H; now inversion H|]. split; [discriminate|].
    split; [|reflexivity].
    change (inner_events
              ([Inner (Mkdir export_dir);
                Notice INFO (Processing_single_file name)]
               ++ map Inner (trace (animation_data_of env self wav_file opts))
               ++ map Inner
                    (trace (_generate_animation_assets env d
                              (Path.stem wav_file) export_dir opts))
               ++ [Notice INFO (Generated_assets_for (List.length a) name)])
            = [Mkdir export_dir]
              ++ (trace (animation_data_of env self wav_file opts)
                  ++ trace (_generate_animation_assets env d
                              (Path.stem wav_file) export_dir opts))
              ++ []).
    rewrite !inner_events_app, !inner_events_map, <- !app_assoc. reflexivity.
  - rewrite (outcome_bind_Raise _ _ e Ed), (trace_bind_Raise _ _ e Ed).
    unfold prepend. cbn [effects ending connection].
    split; [discriminate|]. split.
    + intros e' H. inversion H. subst e'. split; [reflexivity|].
      right. right. apply in_or_app. right. now left.
    + split; [|reflexivity].
      change (inner_events
                ([Inner (Mkdir export_dir);
                  Notice INFO (Processing_single_file name)]
                 ++ map Inner (trace (animation_data_of env self wav_file opts))
                 ++ [Inner (Log ERROR (Failed_to_process name e))])
              = [Mkdir export_dir]
                ++ trace (animation_data_of env self wav_file opts)
                ++ [Log ERROR (Failed_to_process name e)]).
      rewrite !inner_events_app, !inner_events_map. reflexivity.
Qed.

Lemma single_file_does_what_the_batch_does_witness :
  let wav_file := Path.div (Path.div Demo.workspace "audio") "02_b.wav" in
  let export_dir := Path.div Demo.workspace "unreal_assets" in
  let batch := asset_files_of (Demo.env Demo.listing) Demo.self export_dir [] wav_file in
  let run :=
    process_single_file (Demo.env Demo.listing) Demo.self wav_file None
      not_connected in
  (forall asset_files,
      outcome batch = Return asset_files -> ending run = Done asset_files)
  /\ (forall e,
        outcome batch = Raise e ->
        ending run = Failed e
        /\ In (Inner (Log ERROR (Failed_to_process "02_b.wav" e))) (effects run))
  /\ inner_events (effects run)
     = Mkdir export_dir :: trace batch
       ++ match outcome batch with
          | Return _ => []
          | Raise e => [Log ERROR (Failed_to_process "02_b.wav" e)]
          end
  /\ connection run = not_connected.
Proof.
  exact (single_file_does_what_the_batch_does (Demo.env Demo.listing) Demo.self
           Demo.workspace "02_b.wav" None not_connected
           eq_refl eq_refl eq_refl).
Defined.

(** ** [connect_to_audio2face] and [close] *)


(** ** [main] *)

Lemma print_assets_run (generated_assets : list Path.t) (c : Connection) :
  print_assets generated_assets c
  = {| effects := map (fun asset => Print (Asset_bullet asset)) generated_assets;
       ending := Done tt;
       connection := c |}.
Proof.
  induction generated_assets as [|asset rest IH]; [reflexivity|].
  simpl. unfold print. rewrite pbind_perform, IH. reflexivity.
Qed.

Lemma verbose_run (args : Args) (c : Connection) :
  (if verbose args then perform (SetLevel DEBUG) else pret tt) c
  = {| effects := if verbose args then [SetLevel DEBUG] else [];
       ending := Done tt;
       connection := c |}.
Proof. now destruct (verbose args). Qed.

Lemma connect_made (env : Env) (host : Host) (self : Processor)
  (c : Connection) :
  NVIDIA_SDK_AVAILABLE env = true ->
  insecure_channel host (audio2face_url self) = None ->
  connect_to_audio2face env host self c
  = {| effects :=
         [InsecureChannel (audio2face_url self);
          Notice INFO (Connected_to (audio2face_url self))];
       ending := Done true;
       connection :=
         {| channel := Some (audio2face_url self);
            stub := Some (audio2face_url self) |} |}.
Proof.
  intros Hs Hc. unfold connect_to_audio2face. now rewrite Hs, Hc.
Qed.

Lemma connect_not_made (env : Env) (host : Host) (self : Processor)
  (c : Connection) :
  NVIDIA_SDK_AVAILABLE env = false
  \/ insecure_channel host (audio2face_url self) <> None ->
  exists efs,
    connect_to_audio2face env host self c
    = {| effects := efs; ending := Done false; connection := c |}
    /\ inner_events efs = [] /\ channels_closed efs = [].
Proof.
  intros H. unfold connect_to_audio2face.
  destruct (NVIDIA_SDK_AVAILABLE env).
  - destruct H as [H|H]; [discriminate|].
    destruct (insecure_channel host (audio2face_url self)); [|congruence].
    eexists. repeat split.
  - eexists. repeat split.
Qed.

(** The lines of the report. *)
Lemma report_run (generated_assets : list Path.t) (c : Connection) :
  (print Processing_complete ;~
   print (Generated_assets_count (List.length generated_assets)) ;~
   print_assets generated_assets ;~
   print Next_steps ;~
   print Next_step_import_USD ;~
   print Next_step_apply_animations ;~
   print Next_step_render) c
  = {| effects := report generated_assets; ending := Done tt; connection := c |}.
Proof.
  unfold print. rewrite !pbind_perform.
  rewrite (pbind_Done _ _ _ tt) by now rewrite print_assets_run.
  rewrite print_assets_run. cbn [effects connection].
  rewrite !pbind_perform. unfold perform, prepend, report.
  cbn [effects ending connection].
  f_equal; rewrite <- ?app_assoc; reflexivity.
Qed.

(** The configuration step of [main]. *)
Lemma config_run (env : Env) (host : Host) (args : Args) (c : Connection) :
  match config args with
  | Some config_path =>
      if exists_ env config_path
      then perform (SafeLoad config_path) ;~
           lift ([], safe_load host config_path)
      else pret (Some [])
  | None => pret (Some [])
  end c
  = {| effects := config_effects env args;
       ending :=
         match configured env host args with
         | Return options => Done options
         | Raise e => Failed e
         end;
       connection := c |}.
Proof.
  unfold config_effects, configured.
  destruct (config args) as [config_path|]; [|reflexivity].
  destruct (exists_ env config_path); reflexivity.
Qed.

(** [main] once the input exists, the channel is made and the
    configuration is loaded: the effects and the ending of the mode's
    work, then the report or the error record, then the channel is
    closed. *)
Lemma main_configured (env : Env) (host : Host) (args : Args) (c : Connection)
  (options : option Options) :
  let processor :=
    {| audio2face_url := arg_audio2face_url args; timeout := arg_timeout args |} in
  let url := audio2face_url processor in
  let connected := {| channel := Some url; stub := Some url |} in
  let work :=
    (if single args || String.eqb (Path.suffix (input_path args)) ".wav"
     then
       (if negb (String.eqb (Path.suffix (input_path args)) ".wav")
        then print (Single_file_must_be_WAV (input_path args)) ;~ sys_exit 1
        else pret tt) ;~
       process_single_file env processor (input_path args) options
     else lift (process_workspace env processor (input_path args) options))
      connected in
  exists_ env (input_path args) = true ->
  NVIDIA_SDK_AVAILABLE env = true ->
  insecure_channel host url = None ->
  configured env host args = Return options ->
  main env host (Accepted args) c
  = {| effects :=
         (if verbose args then [SetLevel DEBUG] else [])
         ++ [InsecureChannel url; Notice INFO (Connected_to url)]
         ++ config_effects env args
         ++ effects work
         ++ match ending work with
            | Done generated_assets => report generated_assets
            | Failed e => [Notice ERROR (Processing_failed e)]
            | SystemExit _ => []
            end
         ++ match channel (connection work) with
            | Some target => [ChannelClose target]
            | None => []
            end;
       ending :=
         match ending work with
         | Done _ => Done tt
         | Failed _ => SystemExit 1
         | SystemExit code => SystemExit code
         end;
       connection := connection work |}.
Proof.
  cbv zeta. intros He Hsdk Hch Hcfg.
  set (processor :=
         {| audio2face_url := arg_audio2face_url args;
            timeout := arg_timeout args |}) in *.
  unfold main. cbv zeta. cbn [parse_args]. rewrite pbind_pret.
  fold processor. rewrite He. cbn [negb].
  rewrite (pbind_Done _ _ _ tt) by now rewrite verbose_run.
  rewrite verbose_run. cbn [effects connection].
  unfold new_processor at 1.
  rewrite (pbind_Done _ _ _ tt) by reflexivity.
  cbn [effects connection]. rewrite prepend_nil.
  match goal with
  | |- context [ptry ?b ?h] => set (body := b); set (handler := h)
  end.
  match goal with
  | |- context [effects (?w ?k)] => remember (w k) as work eqn:Ew
  end.
  assert (B : body not_connected
              = prepend
                  [InsecureChannel (audio2face_url processor);
                   Notice INFO (Connected_to (audio2face_url processor))]
                  (prepend (config_effects env args)
                     match ending work with
                     | Done generated_assets =>
                         prepend (effects work)
                           {| effects := report generated_assets;
                              ending := Done tt;
                              connection := connection work |}
                     | Failed e =>
                         {| effects := effects work;
                            ending := Failed e;
                            connection := connection work |}
                     | SystemExit code =>
                         {| effects := effects work;
                            ending := SystemExit code;
                            connection := connection work |}
                     end)).
  { unfold body.
    rewrite (pbind_Done _ _ _ true) by now rewrite (connect_made _ _ _ _ Hsdk Hch).
    rewrite (connect_made _ _ _ _ Hsdk Hch). cbn [effects connection negb].
    rewrite pbind_pret. f_equal.
    rewrite (pbind_Done _ _ _ options) by now rewrite config_run, Hcfg.
    rewrite config_run. cbn [effects connection]. f_equal.
    destruct (ending work) as [assets|e|code] eqn:Ee.
    - rewrite (pbind_Done _ _ _ assets) by (rewrite <- Ew; exact Ee).
      rewrite <- Ew. now rewrite report_run.
    - rewrite (pbind_Failed _ _ _ e) by (rewrite <- Ew; exact Ee).
      now rewrite <- Ew.
    - rewrite (pbind_SystemExit _ _ _ code) by (rewrite <- Ew; exact Ee).
      now rewrite <- Ew. }
  rewrite (pfinally_close _ _ _ (ptry_run body handler _ _ B)).
  unfold handler, notify. clear B Ew body handler.
  destruct work as [efs [assets|e|code] c'];
    cbn [prepend effects ending connection];
    rewrite ?pbind_perform; unfold prepend, sys_exit;
    cbn [effects ending connection]; f_equal;
    rewrite <- ?app_assoc; cbn [app]; rewrite ?app_nil_r; reflexivity.
Qed.

(** [main] once the input exists and the channel is made, when the
    configuration cannot be loaded: the error record, exit status 1,
    and the channel is closed. *)
Lemma main_not_configured (env : Env) (host : Host) (args : Args)
  (c : Connection) (e : exn) :
  let url := arg_audio2face_url args in
  exists_ env (input_path args) = true ->
  NVIDIA_SDK_AVAILABLE env = true ->
  insecure_channel host url = None ->
  configured env host args = Raise e ->
  main env host (Accepted args) c
  = {| effects :=
         (if verbose args then [SetLevel DEBUG] else [])
         ++ [InsecureChannel url; Notice INFO (Connected_to url)]
         ++ config_effects env args
         ++ [Notice ERROR (Processing_failed e); ChannelClose url];
       ending := SystemExit 1;
       connection := {| channel := Some url; stub := Some url |} |}.
Proof.
  cbv zeta. intros He Hsdk Hch Hcfg.
  set (processor :=
         {| audio2face_url := arg_audio2face_url args;
            timeout := arg_timeout args |}) in *.
  change (insecure_channel host (audio2face_url processor) = None) in Hch.
  unfold main. cbv zeta. cbn [parse_args]. rewrite pbind_pret.
  fold processor. rewrite He. cbn [negb].
  rewrite (pbind_Done _ _ _ tt) by now rewrite verbose_run.
  rewrite verbose_run. cbn [effects connection].
  unfold new_processor at 1.
  rewrite (pbind_Done _ _ _ tt) by reflexivity.
  cbn [effects connection]. rewrite prepend_nil.
  match goal with
  | |- context [ptry ?b ?h] => set (body := b); set (handler := h)
  end.
  assert (B : body not_connected
              = prepend
                  [InsecureChannel (audio2face_url processor);
                   Notice INFO (Connected_to (audio2face_url processor))]
                  {| effects := config_effects env args;
                     ending := Failed e;
                     connection :=
                       {| channel := Some (audio2face_url processor);
                          stub := Some (audio2face_url processor) |} |}).
  { unfold body.
    rewrite (pbind_Done _ _ _ true) by now rewrite (connect_made _ _ _ _ Hsdk Hch).
    rewrite (connect_made _ _ _ _ Hsdk Hch). cbn [effects connection negb].
    rewrite pbind_pret. f_equal.
    rewrite (pbind_Failed _ _ _ e) by now rewrite config_run, Hcfg.
    now rewrite config_run. }
  rewrite (pfinally_close _ _ _ (ptry_run body handler _ _ B)).
  unfold handler, notify. clear B body handler.
  cbn [prepend effects ending connection].
  rewrite ?pbind_perform; unfold prepend, sys_exit;
    cbn [effects ending connection channel audio2face_url processor]; f_equal;
    rewrite <- ?app_assoc; cbn [app]; rewrite ?app_nil_r; reflexivity.
Qed.

(** [main] once the input exists and the channel is made, with no
    configuration file: the effects and the ending of the mode's work,
    then the report or the error record, then the channel is closed. *)
Lemma main_connected (env : Env) (host : Host) (args : Args) (c : Connection) :
  let processor :=
    {| audio2face_url := arg_audio2face_url args; timeout := arg_timeout args |} in
  let url := audio2face_url processor in
  let connected := {| channel := Some url; stub := Some url |} in
  let work :=
    (if single args || String.eqb (Path.suffix (input_path args)) ".wav"
     then
       (if negb (String.eqb (Path.suffix (input_path args)) ".wav")
        then print (Single_file_must_be_WAV (input_path args)) ;~ sys_exit 1
        else pret tt) ;~
       process_single_file env processor (input_path args) (Some [])
     else lift (process_workspace env processor (input_path args) (Some [])))
      connected in
  exists_ env (input_path args) = true ->
  NVIDIA_SDK_AVAILABLE env = true ->
  insecure_channel host url = None ->
  config args = None ->
  main env host (Accepted args) c
  = {| effects :=
         (if verbose args then [SetLevel DEBUG] else [])
         ++ [InsecureChannel url; Notice INFO (Connected_to url)]
         ++ effects work
         ++ match ending work with
            | Done generated_assets => report generated_assets
            | Failed e => [Notice ERROR (Processing_failed e)]
            | SystemExit _ => []
            end
         ++ match channel (connection work) with
            | Some target => [ChannelClose target]
            | None => []
            end;
       ending :=
         match ending work with
         | Done _ => Done tt
         | Failed _ => SystemExit 1
         | SystemExit code => SystemExit code
         end;
       connection := connection work |}.
Proof.
  cbv zeta. intros He Hsdk Hch Hcfg.
  pose proof (main_configured env host args c (Some [])) as R. cbv zeta in R.
  rewrite (R He Hsdk Hch) by (unfold configured; now rewrite Hcfg).
  unfold config_effects. now rewrite Hcfg.
Qed.

(** ** What every caller keeps *)

Section Composition.

Context {A B : Type}.















End Composition.















Lemma inner_events_cons (ef : effect) (efs : list effect) :
  inner_events (ef :: efs) = inner_events [ef] ++ inner_events efs.
Proof. unfold inner_events. simpl. now rewrite app_nil_r. Qed.

Lemma inner_events_report (generated_assets : list Path.t) :
  inner_events (report generated_assets) = [].
Proof.
  unfold report. rewrite !inner_events_app. simpl. rewrite app_nil_r.
  induction generated_assets as [|p l IH]; [reflexivity | exact IH].
Qed.

(** X15: when the SDK is not available, or the channel cannot be made,
    [main] leaves with exit status 1 and nothing of the processing runs:
    no file is read, no service is called, nothing is written.  In
    particular the fallback path is never taken from [main]. *)
Theorem main_without_connection_processes_nothing (env : Env) (host : Host)
  (args : Args) (c : Connection) :
  NVIDIA_SDK_AVAILABLE env = false
  \/ insecure_channel host (arg_audio2face_url args) <> None ->
  ending (main env host (Accepted args) c) = SystemExit 1
  /\ inner_events (effects (main env host (Accepted args) c)) = [].
Proof.
  intros H.
  assert (R : exists efs,
             main env host (Accepted args) c
             = {| effects := efs;
                  ending := SystemExit 1;
                  connection := if exists_ env (input_path args)
                                then not_connected else c |}
             /\ inner_events efs = []).
  { unfold main. cbv zeta. cbn [parse_args]. rewrite pbind_pret.
    rewrite (pbind_Done _ _ _ tt) by now rewrite verbose_run.
    rewrite verbose_run. cbn [effects connection].
    destruct (exists_ env (input_path args)); cbn [negb].
    - unfold new_processor at 1.
      rewrite (pbind_Done _ _ _ tt) by reflexivity.
      cbn [effects connection]. rewrite prepend_nil.
      destruct (connect_not_made env host
                  {| audio2face_url := arg_audio2face_url args;
                     timeout := arg_timeout args |} not_connected H)
        as (efs & Ec & Hi & _).
      erewrite pfinally_close.
      2: { erewrite ptry_run.
           2: { rewrite (pbind_Done _ _ _ false) by now rewrite Ec.
                rewrite Ec. cbn [effects connection negb].
                rewrite (pbind_SystemExit _ _ _ 1%Z) by reflexivity.
                reflexivity. }
           reflexivity. }
      eexists. split; [reflexivity|].
      cbn [prepend effects ending connection channel not_connected].
      rewrite !inner_events_app, Hi. now destruct (verbose args).
    - eexists. split; [reflexivity|]. now destruct (verbose args). }
  destruct R as (efs & -> & Hi). now split.
Qed.

Lemma main_without_connection_processes_nothing_witness :
  ending
    (main Demo.env_without_sdk Demo.host (Accepted Demo.batch_args)
       not_connected)
  = SystemExit 1
  /\ inner_events
       (effects
          (main Demo.env_without_sdk Demo.host (Accepted Demo.batch_args)
             not_connected))
     = [].
Proof.
  exact (main_without_connection_processes_nothing Demo.env_without_sdk
           Demo.host Demo.batch_args not_connected (or_introl eq_refl)).
Defined.

(** X16: in batch mode, with the SDK available and the channel made, on
    a workspace whose audio directory holds WAV files and whose export
    directory can be made.  When the configuration step gives options
    (no configuration file, or one that loads), [main] returns normally
    whatever happens to the single files, even when every one of them
    fails: it runs the batch with these options, prints the report with
    the number of assets that the batch returned, and closes the channel
    last.  When the configuration file cannot be loaded, [main] leaves
    with exit status 1 after the error record, and no file of the
    workspace is processed. *)
Theorem main_batch_returns_despite_failures (env : Env) (host : Host)
  (args : Args) (c : Connection) :
  let processor :=
    {| audio2face_url := arg_audio2face_url args; timeout := arg_timeout args |} in
  let audio_dir := Path.div (input_path args) "audio" in
  let export_dir := Path.div (input_path args) "unreal_assets" in
  let run := main env host (Accepted args) c in
  exists_ env (input_path args) = true ->
  NVIDIA_SDK_AVAILABLE env = true ->
  insecure_channel host (arg_audio2face_url args) = None ->
  single args = false -> Path.suffix (input_path args) <> ".wav" ->
  exists_ env audio_dir = true -> glob_wav env audio_dir <> [] ->
  mkdir env export_dir = None ->
  (forall options,
     configured env host args = Return options ->
     let opts := match options with Some o => o | None => [] end in
     let generated_assets :=
       flat_map (assets_added env processor export_dir opts)
         (Path.sort (glob_wav env audio_dir)) in
     ending run = Done tt
     /\ (exists before,
           effects run
           = before ++ report generated_assets
             ++ [ChannelClose (arg_audio2face_url args)])
     /\ inner_events (effects run)
        = trace (process_workspace env processor (input_path args) options))
  /\ (forall e,
        configured env host args = Raise e ->
        ending run = SystemExit 1
        /\ In (Notice ERROR (Processing_failed e)) (effects run)
        /\ inner_events (effects run) = []
        /\ channels_closed (effects run) = [arg_audio2face_url args]).
Proof.
  cbv zeta. intros He Hsdk Hch Hsingle Hsuffix Ha Hg Hm. split.
  - intros options Hcfg.
    pose proof (main_configured env host args c options) as R. cbv zeta in R.
    rewrite (R He Hsdk Hch Hcfg). clear R.
    apply String.eqb_neq in Hsuffix. rewrite Hsingle, Hsuffix. cbn [orb].
    pose proof (process_workspace_outcome env
                  {| audio2face_url := arg_audio2face_url args;
                     timeout := arg_timeout args |}
                  (input_path args) options Ha Hm Hg) as Ho.
    unfold lift. cbn [effects ending connection channel audio2face_url].
    rewrite Ho. split; [reflexivity|]. split.
    + eexists. rewrite !app_assoc. reflexivity.
    + rewrite !inner_events_app, inner_events_map, inner_events_report.
      replace (inner_events (if verbose args then [SetLevel DEBUG] else []))
        with (@nil event) by now destruct (verbose args).
      replace (inner_events (config_effects env args)) with (@nil event).
      * simpl. now rewrite app_nil_r.
      * unfold config_effects. destruct (config args) as [config_path|];
          [destruct (exists_ env config_path)|]; reflexivity.
  - intros e Hcfg.
    pose proof (main_not_configured env host args c e) as R. cbv zeta in R.
    rewrite (R He Hsdk Hch Hcfg). clear R.
    cbn [effects ending]. split; [reflexivity|]. split; [|split].
    + rewrite !in_app_iff. cbn [In]. auto 20.
    + rewrite !inner_events_app.
      replace (inner_events (if verbose args then [SetLevel DEBUG] else []))
        with (@nil event) by now destruct (verbose args).
      unfold config_effects. destruct (config args) as [config_path|];
        [destruct (exists_ env config_path)|]; reflexivity.
    + rewrite !channels_closed_app.
      replace (channels_closed (if verbose args then [SetLevel DEBUG] else []))
        with (@nil string) by now destruct (verbose args).
      unfold config_effects. destruct (config args) as [config_path|];
        [destruct (exists_ env config_path)|]; reflexivity.
Qed.

Lemma main_batch_returns_despite_failures_witness :
  let processor := {| audio2face_url := "0.0.0.0:52000"; timeout := 180 |} in
  let generated_assets :=
    flat_map
      (assets_added Demo.env_read_only processor
         (Path.div Demo.workspace "unreal_assets") [])
      (Path.sort (glob_wav Demo.env_read_only (Path.div Demo.workspace "audio"))) in
  let run :=
    main Demo.env_read_only Demo.host_with_config
      (Accepted (Demo.config_args "a2f.yaml")) not_connected in
  let run' :=
    main Demo.env_read_only Demo.host_with_config
      (Accepted (Demo.config_args "broken.yaml")) not_connected in
  (ending run = Done tt
   /\ (exists before,
         effects run
         = before ++ report generated_assets ++ [ChannelClose "0.0.0.0:52000"])
   /\ inner_events (effects run)
      = trace (process_workspace Demo.env_read_only processor Demo.workspace
                 (Some [])))
  /\ (ending run' = SystemExit 1
      /\ In (Notice ERROR
               (Processing_failed
                  (ValueError "could not determine a constructor")))
           (effects run')
      /\ inner_events (effects run') = []
      /\ channels_closed (effects run') = ["0.0.0.0:52000"]).
Proof.
  cbv zeta. split.
  - refine (proj1
              (main_batch_returns_despite_failures Demo.env_read_only
                 Demo.host_with_config (Demo.config_args "a2f.yaml")
                 not_connected
                 eq_refl eq_refl eq_refl eq_refl _ eq_refl _ eq_refl)
              (Some []) eq_refl);
      discriminate.
  - refine (proj2
              (main_batch_returns_despite_failures Demo.env_read_only
                 Demo.host_with_config (Demo.config_args "broken.yaml")
                 not_connected
                 eq_refl eq_refl eq_refl eq_refl _ eq_refl _ eq_refl)
              (ValueError "could not determine a constructor") eq_refl);
      discriminate.
Defined.

(** X17: for an existing [.wav] path, with the channel made and no
    configuration file, [main] runs the single-file mode and its ending
    follows the processing of the file: it returns when the animation
    data of the file is returned, and it leaves with exit status 1, after
    the two error records, when the processing raises. *)
Theorem main_single_file_follows_the_processing (env : Env) (host : Host)
  (args : Args) (c : Connection) :
  let processor :=
    {| audio2face_url := arg_audio2face_url args; timeout := arg_timeout args |} in
  let wav_file := input_path args in
  let export_dir :=
    Path.div (Path.parent (Path.parent wav_file)) "unreal_assets" in
  let data := animation_data_of env processor wav_file [] in
  let run := main env host (Accepted args) c in
  exists_ env wav_file = true ->
  NVIDIA_SDK_AVAILABLE env = true ->
  insecure_channel host (arg_audio2face_url args) = None ->
  config args = None ->
  Path.suffix wav_file = ".wav" ->
  mkdir env export_dir = None ->
  ending run
  = match outcome data with
    | Return _ => Done tt
    | Raise _ => SystemExit 1
    end
  /\ forall e,
       outcome data = Raise e ->
       In (Inner (Log ERROR (Failed_to_process (Path.name wav_file) e)))
         (effects run)
       /\ In (Notice ERROR (Processing_failed e)) (effects run)
       /\ written (inner_events (effects run)) = written (trace data).
Proof.
  cbv zeta. intros He Hsdk Hch Hcfg Hs Hm.
  pose proof (main_connected env host args c) as R. cbv zeta in R.
  rewrite (R He Hsdk Hch Hcfg). clear R.
  rewrite Hs, String.eqb_refl, orb_true_r. cbn [negb].
  rewrite pbind_pret.
  pose proof (process_single_file_run env
                {| audio2face_url := arg_audio2face_url args;
                   timeout := arg_timeout args |}
                (input_path args) (Some [])) as R.
  cbv zeta in R. rewrite (R _ He Hs Hm). clear R.
  set (processor :=
         {| audio2face_url := arg_audio2face_url args;
            timeout := arg_timeout args |}).
  set (data := animation_data_of env processor (input_path args) []).
  destruct (outcome data) as [d|e] eqn:Ed.
  - destruct (generate_returns env d (Path.stem (input_path args))
                (Path.div (Path.parent (Path.parent (input_path args)))
                   "unreal_assets") []) as [a Ha].
    rewrite Ha. cbn [prepend effects ending connection].
    split; [reflexivity | discriminate].
  - cbn [prepend effects ending connection].
    split; [reflexivity|]. intros e' H. inversion H. subst e'.
    split; [|split].
    + rewrite !in_app_iff. cbn [In]. auto 20.
    + rewrite !in_app_iff. cbn [In]. auto 20.
    + rewrite !inner_events_app.
      replace (inner_events (if verbose args then [SetLevel DEBUG] else []))
        with (@nil event) by now destruct (verbose args).
      rewrite (inner_events_cons (Inner (Mkdir _))).
      rewrite (inner_events_cons (Notice _ _) (map _ _)), inner_events_map.
      cbn [inner_events flat_map app channel].
      unfold written. rewrite app_nil_r. cbn [flat_map app].
      rewrite flat_map_app. cbn [flat_map app]. now rewrite app_nil_r.
Qed.

Lemma main_single_file_follows_the_processing_witness :
  let processor := {| audio2face_url := "0.0.0.0:52000"; timeout := 180 |} in
  let wav_file := Path.div Demo.audio_dir "02_b.wav" in
  let data := animation_data_of (Demo.env Demo.listing) processor wav_file [] in
  let run :=
    main (Demo.env Demo.listing) Demo.host
      (Accepted (Demo.single_args "02_b.wav")) not_connected in
  ending run = SystemExit 1
  /\ forall e,
       outcome data = Raise e ->
       In (Inner (Log ERROR (Failed_to_process "02_b.wav" e))) (effects run)
       /\ In (Notice ERROR (Processing_failed e)) (effects run)
       /\ written (inner_events (effects run)) = written (trace data).
Proof.
  exact (main_single_file_follows_the_processing (Demo.env Demo.listing)
           Demo.host (Demo.single_args "02_b.wav") not_connected
           eq_refl eq_refl eq_refl eq_refl eq_refl eq_refl).
Defined.

(** ** Failures inside [_process_with_nvidia_sdk] *)

(** X18: when the audio file cannot be read, the method raises the error
    of the read after its first log record: no request is built into a
    call, and the service is not contacted. *)
Theorem unreadable_file_calls_no_service (env : Env) (self : Processor)
  (wav_file : Path.t) (options : Options) (e : exn) :
  read_bytes env wav_file = Raise e ->
  _process_with_nvidia_sdk env self wav_file options
  = ([Log INFO Using_NVIDIA_ACE_SDK; ReadBytes wav_file], Raise e).
Proof.
  intros H. unfold _process_with_nvidia_sdk.
  unfold bind at 1 2 3. cbn [logger emit app]. now rewrite H.
Qed.

Lemma unreadable_file_calls_no_service_witness :
  _process_with_nvidia_sdk Demo.env_nothing Demo.self
    (Path.div Demo.audio_dir "01_a.wav") []
  = ([Log INFO Using_NVIDIA_ACE_SDK;
      ReadBytes (Path.div Demo.audio_dir "01_a.wav")],
     Raise (OSError "No such file or directory")).
Proof.
  exact (unreadable_file_calls_no_service Demo.env_nothing Demo.self
           (Path.div Demo.audio_dir "01_a.wav") []
           (OSError "No such file or directory") eq_refl).
Defined.

Lemma frame_data_loop_records (ad : pb.AnimationData) :
  Forall (fun ev => loop_record ev = true) (trace (frame_data ad)).
Proof.
  unfold frame_data.
  destruct ad as [[[[[|[t [v|]] ws]|]]|]]; simpl; repeat constructor.
Qed.

Lemma collect_loop_records (responses : list pb.Response) :
  forall animation_frames,
    Forall (fun ev => loop_record ev = true)
      (trace (collect responses animation_frames)).
Proof.
  induction responses as [|response rest IH]; intros animation_frames; simpl.
  - constructor.
  - destruct (pb.animation_data response) as [ad|]; [|apply IH].
    apply trace_bind_Forall; [apply frame_data_loop_records|]. intros f.
    cbv zeta.
    apply trace_bind_Forall; [|intros _; apply IH].
    destruct (_ =? 0); simpl; repeat constructor.
Qed.

(** X19: when the response stream ends with an exception, the events of
    the method are its two first records, the call of the service, the
    log records of the response loop and, exactly when the exception is
    a gRPC error, one gRPC error record at the end; any other exception
    passes without a record. *)
Theorem grpc_errors_are_logged_and_raised (env : Env) (self : Processor)
  (wav_file : Path.t) (options : Options) (audio_data : Py.bytes)
  (responses : list pb.Response) (e : exn) :
  read_bytes env wav_file = Return audio_data ->
  ProcessAudioStream env (requests audio_data) (timeout self)
  = (responses, Some e) ->
  exists records,
    Forall (fun ev => loop_record ev = true) records
    /\ _process_with_nvidia_sdk env self wav_file options
       = (Log INFO Using_NVIDIA_ACE_SDK :: ReadBytes wav_file
          :: ProcessAudioStreamCall (requests audio_data) :: records
          ++ match e with
             | AioRpcError _ => [Log ERROR (gRPC_error e)]
             | _ => []
             end,
          Raise e).
Proof.
  intros Hr Hs.
  pose proof (collect_loop_records responses []) as Hq.
  destruct (collect_returns responses []) as [fs [Hc _]].
  exists (trace (collect responses [])). split; [exact Hq|].
  unfold _process_with_nvidia_sdk, async_for.
  unfold bind at 1 2 3. cbn [logger emit app]. rewrite Hr. cbv zeta.
  rewrite Hs. cbn [fst snd].
  destruct (collect responses []) as [trc r]. simpl in Hc. subst r.
  cbn [trace fst]. destruct e; simpl; now rewrite ?app_nil_r.
Qed.

Lemma grpc_errors_are_logged_and_raised_witness :
  exists records,
    Forall (fun ev => loop_record ev = true) records
    /\ _process_with_nvidia_sdk (Demo.env Demo.listing) Demo.self
         (Path.div Demo.audio_dir "02_b.wav") []
       = (Log INFO Using_NVIDIA_ACE_SDK
          :: ReadBytes (Path.div Demo.audio_dir "02_b.wav")
          :: ProcessAudioStreamCall (requests [x02; x00; x01]) :: records
          ++ [Log ERROR (gRPC_error (AioRpcError "UNAVAILABLE"))],
          Raise (AioRpcError "UNAVAILABLE")).
Proof.
  exact (grpc_errors_are_logged_and_raised (Demo.env Demo.listing) Demo.self
           (Path.div Demo.audio_dir "02_b.wav") [] [x02; x00; x01]
           [Demo.response 0; Demo.response 1] (AioRpcError "UNAVAILABLE")
           eq_refl eq_refl).
Defined.
